(** * dspace-angular core data layer: DataService and its collaborators

    A shallow embedding of [DataService] (the abstract data service of
    [src/app/core/data]) together with the stores it drives: the request
    tracker, the normalized object cache and the change analyzer.

    Conventions of the embedding
    - a run-time JavaScript value is a [JSVal]; a number is carried as the
      integer it denotes. The embedding covers the safe integers
      ([isSafeInteger]), where subtracting one in double precision and
      [Number::toString] agree with [Z] and its decimal notation; what is
      stated about the digits of a number is stated for safe integers;
    - a string that may be [undefined] at run time (an href emitted by an
      endpoint stream) is an [option string];
    - an [Observable] is the finite sequence of the values it has emitted;
      [pipe] operators are list functions; whether the endpoint stream has
      completed is recorded beside it, for the one operator ([find]) whose
      emissions depend on it;
    - the two ngrx stores used here, ['cache/object'] and ['data/request'],
      are fields of [CoreState]; every operation passes the store explicitly;
    - a synchronous JavaScript exception is the [Throw] constructor of
      [Outcome]; an error inside a stream callback is a [SError] event of
      that stream. *)

From Stdlib Require Import ZArith Ascii DecimalString.
From stdpp Require Import gmap strings list fin_maps.

Open Scope Z_scope.

(** ** JavaScript values *)

Module JS.

Inductive JSVal : Type :=
| JUndefined
| JNull
| JBool (b : bool)
| JNum (z : Z)
| JStr (s : string).

(** [hasValue] of [shared/empty.util]: neither [undefined] nor [null]. *)
Definition hasValue (v : JSVal) : bool :=
  match v with
  | JUndefined | JNull => false
  | _ => true
  end.

(** [typeof v === 'number'] *)
Definition typeof_number (v : JSVal) : bool :=
  match v with
  | JNum _ => true
  | _ => false
  end.

(** [Number.isSafeInteger]: the integers strictly between [-2^53] and
    [2^53]. *)
Definition isSafeInteger (z : Z) : bool :=
  (- 2 ^ 53 <? z) && (z <? 2 ^ 53).

(** [Number::toString] on a safe integer: its decimal notation. (Beyond the
    safe integers the digits JavaScript prints are those of the nearest
    double, in exponent notation from [1e21] on; the embedding does not
    cover them.) *)
Definition number_toString (z : Z) : string :=
  NilZero.string_of_int (Z.to_int z).

(** The string a template literal [`${v}`] inserts for [v]. *)
Definition toString (v : JSVal) : string :=
  match v with
  | JUndefined => "undefined"
  | JNull => "null"
  | JBool true => "true"
  | JBool false => "false"
  | JNum z => number_toString z
  | JStr s => s
  end.

(** [v - k] for a value [v] of number type (the only ones the data
    service subtracts from), exact on safe integers; on another type the
    result is not a number. *)
Definition minus (v : JSVal) (k : Z) : JSVal :=
  match v with
  | JNum z => JNum (z - k)
  | _ => JUndefined
  end.

(** [`${s}`] for a string that may be [undefined]. *)
Definition str (s : option string) : string :=
  match s with
  | Some x => x
  | None => "undefined"
  end.

(** [hasValue] on a possibly undefined string. *)
Definition hasValue_str (s : option string) : bool :=
  match s with
  | Some _ => true
  | None => false
  end.

(** [isNotEmpty] of [shared/empty.util] on an array: it has an element. *)
Definition isNotEmpty {A : Type} (l : list A) : bool :=
  match l with
  | [] => false
  | _ :: _ => true
  end.

(** [Array.prototype.join] on an array of strings. *)
Definition join (sep : string) (l : list string) : string :=
  String.concat sep l.

End JS.

Import JS.

(** ** Observables as emission sequences *)

Module Rx.

Definition Observable (A : Type) : Type := list A.

Definition map {A B : Type} (f : A → B) (o : Observable A) : Observable B :=
  List.map f o.

Definition filter {A : Type} (p : A → bool) (o : Observable A) : Observable A :=
  List.filter p o.

Definition take {A : Type} (n : nat) (o : Observable A) : Observable A :=
  firstn n o.

(** [find(p)]: the first emission that satisfies [p], if any. *)
Definition find {A : Type} (p : A → bool) (o : Observable A) : option A :=
  List.find p o.

(** [first()]: the first emission, if any. *)
Definition first {A : Type} (o : Observable A) : option A :=
  head o.

(** [distinctUntilChanged()]: an emission equal to the previous one is
    dropped. *)
Fixpoint distinctUntilChanged {A : Type} `{EqDecision A} (o : Observable A)
    : Observable A :=
  match o with
  | [] => []
  | x :: o' =>
      match o' with
      | [] => [x]
      | y :: _ =>
          if decide (x = y) then distinctUntilChanged o'
          else x :: distinctUntilChanged o'
      end
  end.

(** [subscribe(callback)]: the callback runs on every emission, in order. *)
Definition subscribe {A W : Type} (o : Observable A) (callback : A → W → W)
    (w : W) : W :=
  fold_left (λ w x, callback x w) o w.

End Rx.

(** ** [FindAllOptions] of [request.models] *)

Record SortOptions : Type := mkSortOptions {
  field : string;
  direction : string
}.

Record FindAllOptions : Type := mkFindAllOptions {
  currentPage : JSVal;
  elementsPerPage : JSVal;
  sort : option SortOptions;
  startsWith : JSVal
}.

(** The default argument [options = {}]. *)
Definition no_options : FindAllOptions :=
  {| currentPage := JUndefined; elementsPerPage := JUndefined;
     sort := None; startsWith := JUndefined |}.

(** ** The query arguments of [getFindAllHref]

    The four guarded [args.push] statements of [getFindAllHref], in source
    order. *)

Definition page_arg (options : FindAllOptions) : list string :=
  if hasValue (currentPage options) && typeof_number (currentPage options)
  then ["page=" +:+ toString (minus (currentPage options) 1)] else [].

Definition size_arg (options : FindAllOptions) : list string :=
  if hasValue (elementsPerPage options)
  then ["size=" +:+ toString (elementsPerPage options)] else [].

Definition sort_arg (options : FindAllOptions) : list string :=
  match sort options with
  | Some s => ["sort=" +:+ field s +:+ "," +:+ direction s]
  | None => []
  end.

Definition startsWith_arg (options : FindAllOptions) : list string :=
  if hasValue (startsWith options)
  then ["startsWith=" +:+ toString (startsWith options)] else [].

Definition findAll_args (options : FindAllOptions) : list string :=
  page_arg options ++ size_arg options ++ sort_arg options
    ++ startsWith_arg options.

(** ** Patch operations and normalized objects

    [Operation] of [fast-json-patch]; a normalized object is the finite map
    from its field names to their values. The type [V] of field values is
    left open (objects are polymorphic over the entity kind); comparing two
    values structurally is deciding their equality. *)

Inductive OpKind : Type := Add | Remove | Replace | Move | Copy | Test.

Record Operation (V : Type) : Type := mkOperation {
  op : OpKind;
  path : string;
  value : option V
}.

Arguments mkOperation {V} _ _ _.
Arguments op {V} _.
Arguments path {V} _.
Arguments value {V} _.

Abbreviation NormalizedObject V := (gmap string V).

(** The path of a top-level field. *)
Definition field_path (f : string) : string := "/" +:+ f.

(** The field a top-level path names. *)
Definition path_field (p : string) : option string :=
  match p with
  | String "/"%char f => Some f
  | _ => None
  end.

Module ChangeAnalyzer.
Section ChangeAnalyzer.

Context {V : Type} `{EqDecision V}.

(** Modelled from the spec: the comparison of one declared field by the
    Change Analyzer, whose implementation is not among the sources; the
    operations follow the JSON-patch contract the spec refers to (a field
    present on both sides with different values is replaced, a new field
    is added, a vanished field is removed). *)
Definition diff_field (oldVersion newVersion : NormalizedObject V)
    (f : string) : list (Operation V) :=
  match oldVersion !! f, newVersion !! f with
  | Some a, Some b =>
      if decide (a = b) then [] else [mkOperation Replace (field_path f) (Some b)]
  | None, Some b => [mkOperation Add (field_path f) (Some b)]
  | Some _, None => [mkOperation Remove (field_path f) None]
  | None, None => []
  end.

(** Modelled from the spec: [diff(oldVersion, newVersion)] of the Change
    Analyzer (section 4.6), a field-by-field structural comparison in field
    declaration order; [fields] lists the declared fields of the entity
    kind in that order. *)
Definition diff (fields : list string)
    (oldVersion newVersion : NormalizedObject V) : list (Operation V) :=
  concat (List.map (diff_field oldVersion newVersion) fields).

(** Modelled from the spec: applying one patch operation under the
    JSON-patch contract, on top-level paths. [Move] and [Copy] need a source
    path, which the spec's [PatchOperation] does not carry, so they cannot
    be applied. [None] is a patch that does not apply. *)
Definition applyOperation (o : Operation V) (x : NormalizedObject V)
    : option (NormalizedObject V) :=
  match path_field (path o) with
  | None => None
  | Some f =>
      match op o, value o, x !! f with
      | Add, Some v, _ => Some (<[f := v]> x)
      | Replace, Some v, Some _ => Some (<[f := v]> x)
      | Remove, _, Some _ => Some (delete f x)
      | Test, Some v, Some w => if decide (v = w) then Some x else None
      | _, _, _ => None
      end
  end.

(** Modelled from the spec: applying an ordered patch sequence, first
    operation first. *)
Fixpoint applyPatch (ops : list (Operation V)) (x : NormalizedObject V)
    : option (NormalizedObject V) :=
  match ops with
  | [] => Some x
  | o :: ops' =>
      match applyOperation o x with
      | Some x' => applyPatch ops' x'
      | None => None
      end
  end.

End ChangeAnalyzer.
End ChangeAnalyzer.

(** ** The normalized object cache *)

Definition RequestId : Type := nat.

(** Modelled from the spec: [CacheEntry] as section 3 gives it (the object
    cache reducer is not among the sources). *)
Record CacheEntry (V : Type) : Type := mkCacheEntry {
  object : NormalizedObject V;
  requestId : option RequestId;
  pendingPatches : list (Operation V);
  lastUpdated : N
}.

Arguments mkCacheEntry {V} _ _ _ _.
Arguments object {V} _.
Arguments requestId {V} _.
Arguments pendingPatches {V} _.
Arguments lastUpdated {V} _.

Abbreviation ObjectCacheState V := (gmap string (CacheEntry V)).

Module ObjectCache.
Section ObjectCache.

Context {V : Type} `{EqDecision V}.

(** Modelled from the spec: the entry [addPatch] creates for an address
    that has none, "an empty placeholder". *)
Definition placeholder (now : N) : CacheEntry V :=
  mkCacheEntry ∅ None [] now.

(** Modelled from the spec: the materialized view of an entry, its pending
    patches applied in append order over its object. *)
Definition materialize (e : CacheEntry V) : option (NormalizedObject V) :=
  ChangeAnalyzer.applyPatch (pendingPatches e) (object e).

(** Modelled from the spec: [get(address)] of the Normalized Object Cache
    (section 4.3), whose service is not among the sources. A read returns
    the entry with the materialized view as its object; [None] is
    [NotFound] (also when the pending patches do not apply). *)
Definition get (address : string) (c : ObjectCacheState V)
    : option (CacheEntry V) :=
  match c !! address with
  | None => None
  | Some e =>
      match materialize e with
      | Some o => Some (mkCacheEntry o (requestId e) (pendingPatches e) (lastUpdated e))
      | None => None
      end
  end.

(** Modelled from the spec: [put(address, object, requestId)], "inserts or
    overwrites the object and requestId, preserving any existing
    pendingPatches". [now] is the time of the call, the [lastUpdated] of an
    inserted entry. *)
Definition put (now : N) (address : string) (o : NormalizedObject V)
    (rid : RequestId) (c : ObjectCacheState V) : ObjectCacheState V :=
  match c !! address with
  | Some e =>
      <[address := mkCacheEntry o (Some rid) (pendingPatches e) (lastUpdated e)]> c
  | None =>
      <[address := mkCacheEntry o (Some rid) [] now]> c
  end.

(** Modelled from the spec: [remove(address)] evicts the entry. *)
Definition remove (address : string) (c : ObjectCacheState V)
    : ObjectCacheState V :=
  delete address c.

(** Modelled from the spec: [addPatch(address, operations)], "appends to
    pendingPatches, creating the CacheEntry as an empty placeholder if
    absent". *)
Definition addPatch (now : N) (address : string) (ops : list (Operation V))
    (c : ObjectCacheState V) : ObjectCacheState V :=
  let e := default (placeholder now) (c !! address) in
  <[address := mkCacheEntry (object e) (requestId e)
                 (pendingPatches e ++ ops) (lastUpdated e)]> c.

(** Modelled from the spec: [clearPatches(address)]. *)
Definition clearPatches (address : string) (c : ObjectCacheState V)
    : ObjectCacheState V :=
  alter (λ e, mkCacheEntry (object e) (requestId e) [] (lastUpdated e))
    address c.

(** The object the cache last knew for an address before a local edit: the
    materialized view of its entry, or the empty placeholder object when
    there is no entry. *)
Definition lastKnown (address : string) (c : ObjectCacheState V)
    : option (NormalizedObject V) :=
  match c !! address with
  | Some e => materialize e
  | None => Some ∅
  end.

End ObjectCache.
End ObjectCache.

(** ** The request tracker ([RequestService] and its store) *)

(** The href of a request: a string, or [undefined] when a stream handed the
    data service no link. *)
Definition Address : Type := option string.

Inductive RequestKind : Type :=
| KFindAll
| KFindByID
| KGet
| KCreate
| KDeleteByID.

Record RestRequest : Type := mkRestRequest {
  uuid : RequestId;
  href : Address;
  kind : RequestKind;
  body : option string
}.

(** The request classes of [request.models] that the data service
    instantiates: a request is its id, its href, its kind and, for a
    [CreateRequest], its body. *)
Definition FindAllRequest (id : RequestId) (h : Address)
    (options : FindAllOptions) : RestRequest :=
  mkRestRequest id h KFindAll None.

Definition FindByIDRequest (id : RequestId) (h : Address)
    (resourceID : string) : RestRequest :=
  mkRestRequest id h KFindByID None.

Definition GetRequest (id : RequestId) (h : Address) : RestRequest :=
  mkRestRequest id h KGet None.

Definition CreateRequest (id : RequestId) (h : Address) (b : string)
    : RestRequest :=
  mkRestRequest id h KCreate (Some b).

Definition DeleteByIDRequest (id : RequestId) (h : Address)
    (resourceID : string) : RestRequest :=
  mkRestRequest id h KDeleteByID None.

(** [RestResponse] of [cache/response.models], with the members the data
    service reads; [instanceofErrorResponse] is the outcome of
    [response instanceof ErrorResponse]. *)
Record RestResponse : Type := mkRestResponse {
  isSuccessful : bool;
  instanceofErrorResponse : bool;
  errorMessage : string;
  resourceSelfLinks : list string
}.

Inductive RequestEntryState : Type :=
| Pending
| ResponseSuccess
| ResponseError.

(** Modelled from the spec: [RequestEntry] as section 3 gives it (the
    request reducer is not among the sources); [stale] is the mark
    [invalidateByAddress] leaves on an entry. *)
Record RequestEntry : Type := mkRequestEntry {
  id : RequestId;
  address : Address;
  state : RequestEntryState;
  response : option RestResponse;
  completed : bool;
  timestamp : N;
  stale : bool
}.

(** Modelled from the spec: the ['data/request'] store together with what
    the tracker owns besides it, namely the identifier supply, the clock,
    the staleness threshold ([None]: never expire, the default) and the log
    of calls handed to the transport. *)
Record RequestState : Type := mkRequestState {
  entries : list RequestEntry;
  next_id : RequestId;
  clock : N;
  ttl : option N;
  sent : list RestRequest
}.

Module RequestService.

(** The tracker at process start. *)
Definition init : RequestState := mkRequestState [] 0%nat 0%N None [].

(** Modelled from the spec: [generateId()], "a fresh unique identifier;
    never reused"; [RequestService] is not among the sources. *)
Definition generateRequestId (s : RequestState) : RequestId * RequestState :=
  (next_id s,
   mkRequestState (entries s) (S (next_id s)) (clock s) (ttl s) (sent s)).

(** Modelled from the spec: the identity-sensitive kinds of section 4.2.
    The spec does not list them; they are the kinds whose caller in the data
    service follows the entry of its own request id ([create] and [delete]
    read [getByUUID(requestId)]), the other kinds are followed by address. *)
Definition identity_sensitive (k : RequestKind) : bool :=
  match k with
  | KCreate | KDeleteByID => true
  | KFindAll | KFindByID | KGet => false
  end.

Definition is_pending (e : RequestEntry) : bool :=
  match state e with
  | Pending => true
  | _ => false
  end.

(** Modelled from the spec: an entry that is within the staleness threshold
    and was not invalidated. *)
Definition fresh (s : RequestState) (e : RequestEntry) : bool :=
  negb (stale e) &&
  match ttl s with
  | None => true
  | Some t => (clock s <=? timestamp e + t)%N
  end.

(** Modelled from the spec: "either Pending or terminal-and-not-stale". *)
Definition acceptable (s : RequestState) (e : RequestEntry) : bool :=
  is_pending e || fresh s e.

(** Modelled from the spec: "the same address (or, for identity-sensitive
    kinds, same id)". *)
Definition same_target (r : RestRequest) (e : RequestEntry) : bool :=
  if identity_sensitive (kind r)
  then bool_decide (id e = uuid r)
  else bool_decide (address e = href r).

(** Modelled from the spec: the lookup of [configure], the oldest entry for
    the request's target that is acceptable. *)
Definition lookup (r : RestRequest) (s : RequestState) : option RequestEntry :=
  List.find (λ e, same_target r e && acceptable s e) (entries s).

(** Modelled from the spec: the entry stored for a dispatched request. *)
Definition pending_entry (r : RestRequest) (now : N) : RequestEntry :=
  mkRequestEntry (uuid r) (href r) Pending None false now false.

(** Modelled from the spec: [configure(request)] of the Request Tracker
    (section 4.2). An acceptable entry suppresses the dispatch; otherwise the
    request goes to the transport and a [Pending] entry is stored under its
    id. *)
Definition configure (r : RestRequest) (s : RequestState) : RequestState :=
  match lookup r s with
  | Some _ => s
  | None =>
      mkRequestState (entries s ++ [pending_entry r (clock s)])
        (next_id s) (clock s) (ttl s) (sent s ++ [r])
  end.

(** Modelled from the spec: the transition of an entry on transport
    completion, "exactly once from Pending to a terminal state". *)
Definition settle (i : RequestId) (resp : RestResponse) (e : RequestEntry)
    : RequestEntry :=
  if bool_decide (id e = i) && is_pending e
  then mkRequestEntry (id e) (address e)
         (if isSuccessful resp then ResponseSuccess else ResponseError)
         (Some resp) true (timestamp e) (stale e)
  else e.

(** Modelled from the spec: the transport completes the request [i]. *)
Definition complete (i : RequestId) (resp : RestResponse) (s : RequestState)
    : RequestState :=
  mkRequestState (List.map (settle i resp) (entries s))
    (next_id s) (clock s) (ttl s) (sent s).

(** Modelled from the spec: "marks any entry for that address stale". *)
Definition mark_stale (a : Address) (e : RequestEntry) : RequestEntry :=
  if bool_decide (address e = a)
  then mkRequestEntry (id e) (address e) (state e) (response e) (completed e)
         (timestamp e) true
  else e.

(** Modelled from the spec: [invalidateByAddress(address)]. *)
Definition invalidateByAddress (a : Address) (s : RequestState) : RequestState :=
  mkRequestState (List.map (mark_stale a) (entries s))
    (next_id s) (clock s) (ttl s) (sent s).

(** Time passes. *)
Definition tick (d : N) (s : RequestState) : RequestState :=
  mkRequestState (entries s) (next_id s) (clock s + d)%N (ttl s) (sent s).

(** Modelled from the spec: the current state of the entry [getById(id)]
    streams. *)
Definition getByUUID (i : RequestId) (s : RequestState) : option RequestEntry :=
  List.find (λ e, bool_decide (id e = i)) (entries s).


(** What happens to the tracker: a caller obtains an id and configures a
    request with it, the transport completes a request, an address is
    invalidated, time passes. *)
Inductive Event : Type :=
| ECall (k : RequestKind) (a : Address) (b : option string)
| EComplete (i : RequestId) (resp : RestResponse)
| EInvalidate (a : Address)
| ETick (d : N).

Definition call (k : RequestKind) (a : Address) (b : option string)
    (s : RequestState) : RequestState :=
  let '(i, s1) := generateRequestId s in
  configure (mkRestRequest i a k b) s1.

Definition step (ev : Event) (s : RequestState) : RequestState :=
  match ev with
  | ECall k a b => call k a b s
  | EComplete i resp => complete i resp s
  | EInvalidate a => invalidateByAddress a s
  | ETick d => tick d s
  end.

Definition run (evs : list Event) (s : RequestState) : RequestState :=
  fold_left (λ s ev, step ev s) evs s.

(** The states the store goes through along a sequence of events. *)
Fixpoint trace (evs : list Event) (s : RequestState) : list RequestState :=
  match evs with
  | [] => [s]
  | ev :: evs' => s :: trace evs' (step ev s)
  end.

Definition is_completion_of (i : RequestId) (ev : Event) : bool :=
  match ev with
  | EComplete j _ => bool_decide (j = i)
  | _ => false
  end.

(** Every stored id was handed out by the identifier supply. *)
Definition ids_below (s : RequestState) : bool :=
  forallb (λ e, Nat.ltb (id e) (next_id s)) (entries s).

(** The entry of [i] is stored and the transport has not completed it. *)
Definition awaiting (i : RequestId) (s : RequestState) : Prop :=
  ∃ e, getByUUID i s = Some e ∧ is_pending e = true ∧ completed e = false.

(** *** The tracker under every reading of section 4.2

    Section 4.2 leaves two things open: which kinds are the
    identity-sensitive ones, looked up by id, and whether an invalidation
    makes an entry that is still pending stale for the next lookup (its
    algorithm accepts every pending entry, its [invalidateByAddress] says
    the next [configure] dispatches again). A [Policy] fixes both; the
    definitions below are those above with the policy as a parameter, and
    [service_policy] is the reading the definitions above take. *)
Record Policy : Type := mkPolicy {
  by_id : RequestKind → bool;
  invalidation_reaches_pending : bool
}.

Definition service_policy : Policy := mkPolicy identity_sensitive false.

(** Modelled from the spec: "either Pending or terminal-and-not-stale",
    where a pending entry that was invalidated counts or not, by the
    policy. *)
Definition acceptable_under (P : Policy) (s : RequestState) (e : RequestEntry)
    : bool :=
  is_pending e && negb (invalidation_reaches_pending P && stale e)
  || fresh s e.

(** Modelled from the spec: "the same address (or, for identity-sensitive
    kinds, same id)". *)
Definition same_target_under (P : Policy) (r : RestRequest) (e : RequestEntry)
    : bool :=
  if by_id P (kind r)
  then bool_decide (id e = uuid r)
  else bool_decide (address e = href r).

(** Modelled from the spec: the lookup of [configure]. *)
Definition lookup_under (P : Policy) (r : RestRequest) (s : RequestState)
    : option RequestEntry :=
  List.find (λ e, same_target_under P r e && acceptable_under P s e) (entries s).

(** Modelled from the spec: [configure(request)] of the Request Tracker
    (section 4.2). *)
Definition configure_under (P : Policy) (r : RestRequest) (s : RequestState)
    : RequestState :=
  match lookup_under P r s with
  | Some _ => s
  | None =>
      mkRequestState (entries s ++ [pending_entry r (clock s)])
        (next_id s) (clock s) (ttl s) (sent s ++ [r])
  end.


Definition call_under (P : Policy) (k : RequestKind) (a : Address)
    (b : option string) (s : RequestState) : RequestState :=
  let '(i, s1) := generateRequestId s in
  configure_under P (mkRestRequest i a k b) s1.

Definition step_under (P : Policy) (ev : Event) (s : RequestState)
    : RequestState :=
  match ev with
  | ECall k a b => call_under P k a b s
  | EComplete i resp => complete i resp s
  | EInvalidate a => invalidateByAddress a s
  | ETick d => tick d s
  end.

Definition run_under (P : Policy) (evs : list Event) (s : RequestState)
    : RequestState :=
  fold_left (λ s ev, step_under P ev s) evs s.







End RequestService.

(** ** The store and the effects of the data service *)

(** [CoreState] of [core.reducers.ts], restricted to the two stores the data
    service reads and writes (['cache/object'] and ['data/request']; the
    state types of ['cache/syncbuffer'], ['index'] and ['auth'] are declared
    elsewhere and no operation below touches them). *)
Record CoreState (V : Type) : Type := mkCoreState {
  cache_object : ObjectCacheState V;
  data_request : RequestState
}.

Arguments mkCoreState {V} _ _.
Arguments cache_object {V} _.
Arguments data_request {V} _.

(** A notification handed to [NotificationsService.error]: title and
    message. *)
Definition Notification : Type := (string * string)%type.

Record World (V : Type) : Type := mkWorld {
  store : CoreState V;
  notifications : list Notification
}.

Arguments mkWorld {V} _ _.
Arguments store {V} _.
Arguments notifications {V} _.

(** The result of a synchronous call: a value, or an exception thrown to
    the caller. *)
Inductive Outcome (A : Type) : Type :=
| Ok (a : A)
| Throw (e : string).

Arguments Ok {A} _.
Arguments Throw {A} _.

(** What a subscriber of a returned stream has seen: a value, an error
    notification, or nothing yet. *)
Inductive StreamEvent (A : Type) : Type :=
| SNext (a : A)
| SError (e : string)
| SSilent.

Arguments SNext {A} _.
Arguments SError {A} _.
Arguments SSilent {A}.

(** A call of a public operation: runs on the world, returns or throws. *)
Definition M (V A : Type) : Type := World V → Outcome A * World V.

#[global] Instance M_ret {V : Type} : MRet (M V) :=
  λ A a w, (Ok a, w).

#[global] Instance M_bind {V : Type} : MBind (M V) :=
  λ A B k m w,
    match m w with
    | (Ok a, w') => k a w'
    | (Throw e, w') => (Throw e, w')
    end.

(** A collaborator call that may throw. *)
Definition lift {V A : Type} (o : Outcome A) : M V A := λ w, (o, w).

(** A state change that cannot throw. *)
Definition modify {V : Type} (f : World V → World V) : M V unit :=
  λ w, (Ok tt, f w).

(** Taking a fresh request id. *)
Definition fresh_id {V : Type} : M V RequestId :=
  λ w,
    let '(i, s1) := RequestService.generateRequestId (data_request (store w)) in
    (Ok i, mkWorld (mkCoreState (cache_object (store w)) s1) (notifications w)).

(** The argument of [buildSingle]: an href or a stream of hrefs. *)
Inductive HrefSource : Type :=
| OfHref (h : Address)
| OfObs (o : Rx.Observable Address).

(** ** [DataService]

    The abstract members and collaborators of the class. [TDomain] is the
    domain model, [RD] and [RDList] are the read models
    [Observable<RemoteData<TDomain>>] and
    [Observable<RemoteData<PaginatedList<TDomain>>>] the builder returns,
    [Json] is a serialized object. A collaborator that can fail with an
    exception returns an [Outcome]. [halService_getEndpoint_completed] tells
    whether the stream [halService.getEndpoint] returned has completed. *)
Class DataService (V TDomain RD RDList Json : Type) : Type := {
  linkPath : string;
  getBrowseEndpoint : FindAllOptions → option string → Rx.Observable Address;
  halService_getEndpoint : string → Rx.Observable Address;
  halService_getEndpoint_completed : string → bool;
  URLCombiner_toString : list (option string) → string;
  rdbService_buildSingle : HrefSource → RD;
  rdbService_buildList : Rx.Observable Address → RDList;
  dataBuildService_normalize : TDomain → Outcome (NormalizedObject V);
  comparator_diff :
    NormalizedObject V → NormalizedObject V → list (Operation V);
  serializer_serialize : string → NormalizedObject V → Outcome Json;
  JSON_stringify : Json → string;
  self_of : TDomain → string;
  uuid_of : TDomain → string;
  type_of : TDomain → string
}.

Section DataServiceMethods.

Context {V TDomain RD RDList Json : Type} `{EqDecision V}.
Context `{!DataService V TDomain RD RDList Json}.

(** The tracker and the cache inside the world. *)
Definition on_requests (f : RequestState → RequestState) (w : World V)
    : World V :=
  mkWorld
    (mkCoreState (cache_object (store w)) (f (data_request (store w))))
    (notifications w).

Definition on_cache (f : ObjectCacheState V → ObjectCacheState V)
    (w : World V) : World V :=
  mkWorld
    (mkCoreState (f (cache_object (store w))) (data_request (store w)))
    (notifications w).

Definition notify_error (title message : string) (w : World V) : World V :=
  mkWorld (store w) (notifications w ++ [(title, message)]).

(** [requestService.configure(new R(requestService.generateRequestId(), ..))] *)
Definition configure_fresh (mk : RequestId → RestRequest) (w : World V)
    : World V :=
  let '(i, s1) := RequestService.generateRequestId (data_request (store w)) in
  on_requests (λ _, RequestService.configure (mk i) s1) w.

Definition getFindAllHref (options : FindAllOptions) (lp : option string)
    : Rx.Observable Address :=
  let result := getBrowseEndpoint options lp in
  let args := findAll_args options in
  if isNotEmpty args
  then Rx.map
         (λ h, Some (URLCombiner_toString [h; Some ("?" +:+ join "&" args)]))
         result
  else result.

Definition findAll (options : FindAllOptions) : M V RDList :=
  let hrefObs := getFindAllHref options None in
  modify (Rx.subscribe (Rx.take 1 (Rx.filter hasValue_str hrefObs))
            (λ h, configure_fresh (λ i, FindAllRequest i h options)));;
  mret (rdbService_buildList hrefObs).

Definition getIDHref (endpoint : Address) (resourceID : string) : string :=
  str endpoint +:+ "/" +:+ resourceID.

(** [find(p)] then [subscribe(callback)] on a stream of hrefs: the callback
    runs on the first emission that satisfies [p]; when the source has
    completed without one, [find] emits [undefined] and the callback runs on
    that; otherwise nothing has run yet (the subscription stays, and the
    callback runs when the source emits or completes). *)
Definition subscribe_found (p : Address → bool) (o : Rx.Observable Address)
    (completed : bool) (callback : Address → World V → World V) (w : World V)
    : World V :=
  match Rx.find p o with
  | Some x => callback x w
  | None => if completed then callback None w else w
  end.

Definition findById (i : string) : M V RD :=
  let hrefObs :=
    Rx.map (λ endpoint, Some (getIDHref endpoint i))
      (halService_getEndpoint linkPath) in
  modify (subscribe_found hasValue_str hrefObs
            (halService_getEndpoint_completed linkPath)
            (λ h, configure_fresh (λ rid, FindByIDRequest rid h i)));;
  mret (rdbService_buildSingle (OfObs hrefObs)).

Definition findByHref (h : Address) : M V RD :=
  modify (configure_fresh (λ rid, GetRequest rid h));;
  mret (rdbService_buildSingle (OfHref h)).

Definition patch (h : string) (operations : list (Operation V)) : M V unit :=
  modify (λ w,
    on_cache
      (ObjectCache.addPatch (clock (data_request (store w))) h operations) w).

(** [objectCache.getBySelfLink(selfLink)], as far as a subscriber has seen
    it: the materialized object of the entry, once there is one. *)
Definition getBySelfLink (selfLink : string) (c : ObjectCacheState V)
    : Rx.Observable (NormalizedObject V) :=
  match ObjectCache.get selfLink c with
  | Some e => [object e]
  | None => []
  end.

(** [update(object)], run by a subscriber of the stream it returns: the
    method itself only builds the stream, the callback of [mergeMap] runs on
    the first old version the cache emits. A failure of [normalize] happens
    inside that callback and is an error of the stream. *)
Definition update (o : TDomain) : M V (StreamEvent RD) :=
  λ w,
    let oldVersion_s := getBySelfLink (self_of o) (cache_object (store w)) in
    match Rx.first oldVersion_s with
    | None => (Ok SSilent, w)
    | Some oldVersion =>
        match dataBuildService_normalize o with
        | Throw e => (Ok (SError e), w)
        | Ok newVersion =>
            let operations := comparator_diff oldVersion newVersion in
            let w1 :=
              if isNotEmpty operations
              then on_cache
                     (ObjectCache.addPatch (clock (data_request (store w)))
                        (self_of o) operations) w
              else w in
            (rd ← findById (uuid_of o); mret (SNext rd)) w1
        end
    end.

(** [isNotEmptyOperator()] on a stream of hrefs. *)
Definition isNotEmpty_href (h : Address) : bool :=
  match h with
  | Some s => negb (bool_decide (s = ""))
  | None => false
  end.

(** The truthiness of [parentUUID]. *)
Definition truthy (s : option string) : bool := isNotEmpty_href s.

(** [create(dso, parentUUID)] up to its [return]: the request id is taken,
    the object is normalized and serialized, and the POST request is
    configured on the first endpoint. Normalizing and serializing are plain
    statements of the method body. The value returned here is the request id
    whose entry the returned stream follows; [create_response] is what that
    stream does with the response. *)
Definition create (dso : TDomain) (parentUUID : option string)
    : M V RequestId :=
  requestId ← fresh_id;
  let endpoint_s :=
    Rx.map
      (λ endpoint,
         if truthy parentUUID
         then Some (str endpoint +:+ "?parent=" +:+ str parentUUID)
         else endpoint)
      (Rx.distinctUntilChanged
         (Rx.filter isNotEmpty_href (halService_getEndpoint linkPath))) in
  normalizedObject ← lift (dataBuildService_normalize dso);
  serializedDso ← lift (serializer_serialize (type_of dso) normalizedObject);
  let request_s :=
    Rx.map
      (λ endpoint,
         CreateRequest requestId endpoint (JSON_stringify serializedDso))
      (Rx.take 1 endpoint_s) in
  modify (Rx.subscribe request_s
            (λ r, on_requests (RequestService.configure r)));;
  mret requestId.

(** The stream [create] returns, on the response of its request: the first
    [map] notifies an error response and maps it to [undefined], the second
    [map] reads [resourceSelfLinks] of its argument, [switchMap] hands the
    self link to [findByHref]. *)
Definition create_response (resp : RestResponse) : M V (StreamEvent RD) :=
  if negb (isSuccessful resp) && instanceofErrorResponse resp
  then
    modify (notify_error "Server Error:" (errorMessage resp));;
    mret (SError "TypeError")
  else
    let selfLink :=
      if isNotEmpty (resourceSelfLinks resp)
      then head (resourceSelfLinks resp) else None in
    rd ← findByHref selfLink;
    mret (SNext rd).

(** [delete(dso)] up to its [return]; the value returned here is the request
    id whose entry the returned boolean stream follows. *)
Definition delete (dso : TDomain) : M V RequestId :=
  requestId ← fresh_id;
  let hrefObs :=
    Rx.map (λ endpoint, Some (getIDHref endpoint (uuid_of dso)))
      (halService_getEndpoint linkPath) in
  modify (subscribe_found hasValue_str hrefObs
            (halService_getEndpoint_completed linkPath)
            (λ h, on_requests
                    (RequestService.configure
                       (DeleteByIDRequest requestId h (uuid_of dso)))));;
  mret requestId.

End DataServiceMethods.

(** The boolean stream [delete] returns, over the states the request store
    goes through: [find] the first completed state of the entry, [map] it to
    [response.isSuccessful]. *)
Definition delete_stream (requestId : RequestId) (states : list RequestState)
    : StreamEvent bool :=
  match Rx.find completed (omap (RequestService.getByUUID requestId) states) with
  | None => SSilent
  | Some request =>
      match response request with
      | Some r => SNext (isSuccessful r)
      | None => SError "TypeError"
      end
  end.

(** ** A concrete data service

    Field values are strings; a domain object carries its self link, its
    identifier, its type tag and its fields. The endpoint of the link path
    is known, the serializer is total. *)

Record SampleObject : Type := mkSampleObject {
  sample_self : string;
  sample_uuid : string;
  sample_type : string;
  sample_fields : NormalizedObject string
}.

Definition sample_schema : list string := ["title"; "abstract"].

Definition sample_service
    (serialize : string → NormalizedObject string → Outcome string)
    : DataService string SampleObject HrefSource (Rx.Observable Address) string :=
  {| linkPath := "items";
     getBrowseEndpoint := λ _ _, [Some "https://rest/api/items"];
     halService_getEndpoint := λ _, [Some "https://rest/api/items"];
     halService_getEndpoint_completed := λ _, false;
     URLCombiner_toString := λ parts, String.concat "" (List.map str parts);
     rdbService_buildSingle := λ h, h;
     rdbService_buildList := λ o, o;
     dataBuildService_normalize := λ o, Ok (sample_fields o);
     comparator_diff := ChangeAnalyzer.diff sample_schema;
     serializer_serialize := serialize;
     JSON_stringify := λ j, j;
     self_of := sample_self;
     uuid_of := sample_uuid;
     type_of := sample_type |}.

Definition total_serializer (t : string) (o : NormalizedObject string)
    : Outcome string :=
  Ok t.

Definition failing_serializer (t : string) (o : NormalizedObject string)
    : Outcome string :=
  Throw "SerializationFailure".

Definition page1_size20 : FindAllOptions :=
  mkFindAllOptions (JNum 1) (JNum 20) None JUndefined.

Definition page_as_string : FindAllOptions :=
  mkFindAllOptions (JStr "2") (JNum 5) None JUndefined.

Definition item42 : Address := Some "https://rest/api/items/42".

(** Two overlapping [findById("42")] calls with other traffic in between:
    time passes, the item is deleted, its address is invalidated. *)
Definition overlapping_window : list RequestService.Event :=
  [RequestService.ETick 5;
   RequestService.ECall KFindByID item42 None;
   RequestService.ECall KDeleteByID item42 None;
   RequestService.EInvalidate item42;
   RequestService.ECall KGet (Some "https://rest/api/items") None].

Definition not_found : RestResponse :=
  mkRestResponse false true "Not Found" [].

(** An item and a world whose cache holds it unchanged, with no request
    tracked yet (the item came in with a list). *)
Definition sample_item : SampleObject :=
  mkSampleObject "https://rest/api/items/42" "42" "item" {["title" := "T"]}.

Definition cached_world : World string :=
  mkWorld
    (mkCoreState
       {["https://rest/api/items/42" :=
           mkCacheEntry {["title" := "T"]} None [] 0%N]}
       RequestService.init)
    [].

Definition retitled_item : SampleObject :=
  mkSampleObject "https://rest/api/items/42" "42" "item" {["title" := "U"]}.

Definition empty_world : World string :=
  mkWorld (mkCoreState ∅ RequestService.init) [].

(** A data service whose endpoint streams first emit [undefined] and an
    empty string, before the endpoint is known. *)
Definition late_endpoints : Rx.Observable Address :=
  [None; Some ""; Some "https://rest/api/items"].

Definition late_service
    : DataService string SampleObject HrefSource (Rx.Observable Address) string :=
  {| linkPath := "items";
     getBrowseEndpoint := λ _ _, late_endpoints;
     halService_getEndpoint := λ _, late_endpoints;
     halService_getEndpoint_completed := λ _, false;
     URLCombiner_toString := λ parts, String.concat "" (List.map str parts);
     rdbService_buildSingle := λ h, h;
     rdbService_buildList := λ o, o;
     dataBuildService_normalize := λ o, Ok (sample_fields o);
     comparator_diff := ChangeAnalyzer.diff sample_schema;
     serializer_serialize := total_serializer;
     JSON_stringify := λ j, j;
     self_of := sample_self;
     uuid_of := sample_uuid;
     type_of := sample_type |}.

(** A data service whose endpoint is not known yet: nothing is emitted. *)
Definition silent_service
    : DataService string SampleObject HrefSource (Rx.Observable Address) string :=
  {| linkPath := "items";
     getBrowseEndpoint := λ _ _, [];
     halService_getEndpoint := λ _, [];
     halService_getEndpoint_completed := λ _, false;
     URLCombiner_toString := λ parts, String.concat "" (List.map str parts);
     rdbService_buildSingle := λ h, h;
     rdbService_buildList := λ o, o;
     dataBuildService_normalize := λ o, Ok (sample_fields o);
     comparator_diff := ChangeAnalyzer.diff sample_schema;
     serializer_serialize := total_serializer;
     JSON_stringify := λ j, j;
     self_of := sample_self;
     uuid_of := sample_uuid;
     type_of := sample_type |}.

Definition created : RestResponse :=
  mkRestResponse true false "" [].

(** * Properties *)

(** ** The href of [findAll] *)

Section FindAllHref.

Context {V TDomain RD RDList Json : Type}.
Context `{!DataService V TDomain RD RDList Json}.

Lemma getFindAllHref_args (options : FindAllOptions) (lp : option string) :
  findAll_args options ≠ [] →
  getFindAllHref options lp =
    Rx.map
      (λ h, Some (URLCombiner_toString
                    [h; Some ("?" +:+ join "&" (findAll_args options))]))
      (getBrowseEndpoint options lp).
Proof.
  intros Hne. unfold getFindAllHref.
  destruct (findAll_args options) as [|a args]; [congruence | reflexivity].
Qed.

(** C2: when [currentPage] and [elementsPerPage] are numbers (safe
    integers, the numbers this embedding covers), the query arguments start
    with [page=] the current page minus one and [size=] the page size, and
    the href is every endpoint href combined with the query string made of
    the arguments; for [{currentPage: 1, elementsPerPage: 20}]
    and nothing else set, that query string is [?page=0&size=20], and the
    request [findAll] configures goes to the first endpoint href combined
    with it. *)
Theorem getFindAllHref_page_size
    (options : FindAllOptions) (lp : option string) (p n : Z) :
  currentPage options = JNum p →
  elementsPerPage options = JNum n →
  isSafeInteger p = true →
  isSafeInteger n = true →
  findAll_args options =
    ("page=" +:+ number_toString (p - 1))
      :: ("size=" +:+ number_toString n)
      :: sort_arg options ++ startsWith_arg options
  ∧ getFindAllHref options lp =
      Rx.map
        (λ h, Some (URLCombiner_toString
                      [h; Some ("?" +:+ join "&" (findAll_args options))]))
        (getBrowseEndpoint options lp)
  ∧ (p = 1 → n = 20 → sort options = None →
     hasValue (startsWith options) = false →
     getFindAllHref options lp =
       Rx.map (λ h, Some (URLCombiner_toString [h; Some "?page=0&size=20"]))
         (getBrowseEndpoint options lp)
     ∧ ∀ (w : World V) h0 more,
         getBrowseEndpoint options None = h0 :: more →
         snd (findAll options w) =
           configure_fresh
             (λ i, FindAllRequest i
                     (Some (URLCombiner_toString [h0; Some "?page=0&size=20"]))
                     options) w).
Proof.
  intros Hp Hn _ _.
  assert (Hargs : findAll_args options =
            ("page=" +:+ number_toString (p - 1))
              :: ("size=" +:+ number_toString n)
              :: sort_arg options ++ startsWith_arg options).
  { unfold findAll_args, page_arg, size_arg. rewrite Hp, Hn. reflexivity. }
  assert (Hhref : getFindAllHref options lp =
            Rx.map
              (λ h, Some (URLCombiner_toString
                            [h; Some ("?" +:+ join "&" (findAll_args options))]))
              (getBrowseEndpoint options lp)).
  { apply getFindAllHref_args. rewrite Hargs. discriminate. }
  split; [exact Hargs |]. split; [exact Hhref |].
  intros -> -> Hs Hw.
  assert (Hq : "?" +:+ join "&" (findAll_args options) = "?page=0&size=20").
  { rewrite Hargs. unfold sort_arg, startsWith_arg. rewrite Hs, Hw. reflexivity. }
  split; [rewrite Hhref, Hq; reflexivity |].
  intros w h0 more Hend. unfold findAll, mbind, M_bind, modify, mret, M_ret.
  cbn [snd]. rewrite (getFindAllHref_args options None) by (rewrite Hargs; discriminate).
  rewrite Hq, Hend. reflexivity.
Qed.

(** C8: with none of the four options set, the href is the bare endpoint
    stream: nothing is appended. *)
Theorem getFindAllHref_no_options
    (options : FindAllOptions) (lp : option string) :
  hasValue (currentPage options) = false →
  hasValue (elementsPerPage options) = false →
  sort options = None →
  hasValue (startsWith options) = false →
  findAll_args options = []
  ∧ getFindAllHref options lp = getBrowseEndpoint options lp.
Proof.
  intros Hp Hn Hs Hw.
  assert (Hargs : findAll_args options = []).
  { unfold findAll_args, page_arg, size_arg, sort_arg, startsWith_arg.
    rewrite Hp, Hn, Hs, Hw. reflexivity. }
  split; [exact Hargs |].
  unfold getFindAllHref. rewrite Hargs. reflexivity.
Qed.

(** C10: a [currentPage] that has a value of another type than number adds
    no [page=] argument; the size, sort and startsWith arguments are still
    appended whenever their option has a value. *)
Theorem getFindAllHref_page_not_number
    (options : FindAllOptions) (lp : option string) :
  hasValue (currentPage options) = true →
  typeof_number (currentPage options) = false →
  findAll_args options =
    size_arg options ++ sort_arg options ++ startsWith_arg options
  ∧ Forall (λ a, String.prefix "page=" a = false) (findAll_args options)
  ∧ (hasValue (elementsPerPage options) = true →
     In ("size=" +:+ toString (elementsPerPage options)) (findAll_args options))
  ∧ (∀ s, sort options = Some s →
     In ("sort=" +:+ field s +:+ "," +:+ direction s) (findAll_args options))
  ∧ (hasValue (startsWith options) = true →
     In ("startsWith=" +:+ toString (startsWith options)) (findAll_args options))
  ∧ getFindAllHref options lp =
      if isNotEmpty (size_arg options ++ sort_arg options ++ startsWith_arg options)
      then Rx.map
             (λ h, Some (URLCombiner_toString
                [h; Some ("?" +:+ join "&"
                     (size_arg options ++ sort_arg options
                        ++ startsWith_arg options))]))
             (getBrowseEndpoint options lp)
      else getBrowseEndpoint options lp.
Proof.
  intros Hv Ht.
  assert (Hargs : findAll_args options =
            size_arg options ++ sort_arg options ++ startsWith_arg options).
  { unfold findAll_args, page_arg. rewrite Hv, Ht. reflexivity. }
  split; [exact Hargs |].
  split.
  { rewrite Hargs. unfold size_arg, sort_arg, startsWith_arg.
    destruct (hasValue (elementsPerPage options)), (sort options),
      (hasValue (startsWith options)); simpl; repeat constructor. }
  split.
  { intros He. rewrite Hargs. unfold size_arg. rewrite He. simpl. auto. }
  split.
  { intros s Hs. rewrite Hargs. unfold sort_arg. rewrite Hs.
    apply in_or_app. right. simpl. auto. }
  split.
  { intros Hw. rewrite Hargs. unfold startsWith_arg. rewrite Hw.
    apply in_or_app. right. apply in_or_app. right. simpl. auto. }
  unfold getFindAllHref. rewrite Hargs. reflexivity.
Qed.

End FindAllHref.

Lemma getFindAllHref_page_size_witness :
  currentPage page1_size20 = JNum 1
  ∧ elementsPerPage page1_size20 = JNum 20
  ∧ isSafeInteger 1 = true
  ∧ isSafeInteger 20 = true
  ∧ getFindAllHref (DataService0 := sample_service total_serializer)
      page1_size20 None
    = [Some "https://rest/api/items?page=0&size=20"]
  ∧ sent (data_request (store (snd
      (findAll (DataService0 := sample_service total_serializer)
         page1_size20 empty_world))))
    = [FindAllRequest 0%nat (Some "https://rest/api/items?page=0&size=20")
         page1_size20].
Proof.
  split; [reflexivity |]. split; [reflexivity |].
  split; [reflexivity |]. split; [reflexivity |].
  destruct (getFindAllHref_page_size
              (DataService0 := sample_service total_serializer)
              page1_size20 None 1 20 eq_refl eq_refl eq_refl eq_refl)
    as (_ & _ & Hex).
  destruct (Hex eq_refl eq_refl eq_refl eq_refl) as [Hhref Hreq].
  split; [rewrite Hhref; reflexivity |].
  rewrite (Hreq empty_world (Some "https://rest/api/items") [] eq_refl).
  reflexivity.
Defined.

Lemma getFindAllHref_no_options_witness :
  hasValue (currentPage no_options) = false
  ∧ hasValue (elementsPerPage no_options) = false
  ∧ sort no_options = None
  ∧ hasValue (startsWith no_options) = false
  ∧ getFindAllHref (DataService0 := sample_service total_serializer)
      no_options None
    = [Some "https://rest/api/items"].
Proof.
  split; [reflexivity |]. split; [reflexivity |]. split; [reflexivity |].
  split; [reflexivity |].
  destruct (getFindAllHref_no_options
              (DataService0 := sample_service total_serializer)
              no_options None eq_refl eq_refl eq_refl eq_refl) as (_ & Hex).
  rewrite Hex; reflexivity.
Defined.

Lemma getFindAllHref_page_not_number_witness :
  hasValue (currentPage page_as_string) = true
  ∧ typeof_number (currentPage page_as_string) = false
  ∧ findAll_args page_as_string = ["size=5"].
Proof.
  split; [reflexivity |]. split; [reflexivity |].
  destruct (getFindAllHref_page_not_number
              (DataService0 := sample_service total_serializer)
              page_as_string None eq_refl eq_refl) as (Hargs & _).
  rewrite Hargs; reflexivity.
Defined.

(** ** The change analyzer *)

Section ChangeAnalyzerFacts.

Context {V : Type} `{EqDecision V}.

Lemma path_field_field_path (f : string) : path_field (field_path f) = Some f.
Proof. reflexivity. Qed.

Lemma applyPatch_app (p q : list (Operation V)) (x : NormalizedObject V) :
  ChangeAnalyzer.applyPatch (p ++ q) x =
    ChangeAnalyzer.applyPatch p x ≫= ChangeAnalyzer.applyPatch q.
Proof.
  revert x. induction p as [|o p IH]; intros x; simpl; [reflexivity |].
  destruct (ChangeAnalyzer.applyOperation o x) as [x'|]; [apply IH | reflexivity].
Qed.

Lemma diff_field_same (x : NormalizedObject V) (f : string) :
  ChangeAnalyzer.diff_field x x f = [].
Proof.
  unfold ChangeAnalyzer.diff_field. destruct (x !! f) as [a|]; [| reflexivity].
  destruct (decide (a = a)); [reflexivity | congruence].
Qed.

Lemma diff_same (fields : list string) (x : NormalizedObject V) :
  ChangeAnalyzer.diff fields x x = [].
Proof.
  unfold ChangeAnalyzer.diff.
  induction fields as [|f fields IH]; simpl; [reflexivity |].
  rewrite diff_field_same. exact IH.
Qed.

Lemma applyOperation_replace (f : string) (v w : V) (z : NormalizedObject V) :
  z !! f = Some w →
  ChangeAnalyzer.applyOperation (mkOperation Replace (field_path f) (Some v)) z
    = Some (<[f := v]> z).
Proof.
  intros Hz. unfold ChangeAnalyzer.applyOperation. cbn [path op value].
  rewrite path_field_field_path, Hz. reflexivity.
Qed.

Lemma applyOperation_add (f : string) (v : V) (z : NormalizedObject V) :
  ChangeAnalyzer.applyOperation (mkOperation Add (field_path f) (Some v)) z
    = Some (<[f := v]> z).
Proof.
  unfold ChangeAnalyzer.applyOperation. cbn [path op value].
  rewrite path_field_field_path. reflexivity.
Qed.

Lemma applyOperation_remove (f : string) (w : V) (z : NormalizedObject V) :
  z !! f = Some w →
  ChangeAnalyzer.applyOperation (mkOperation Remove (field_path f) None) z
    = Some (base.delete f z).
Proof.
  intros Hz. unfold ChangeAnalyzer.applyOperation. cbn [path op value].
  rewrite path_field_field_path, Hz. reflexivity.
Qed.

(** Patching one field: the patch of the field applies to any object that
    agrees with the old version on it, and sets the field to its new value
    without touching the other fields. *)
Lemma applyPatch_diff_field (x y z : NormalizedObject V) (f : string) :
  z !! f = x !! f →
  ∃ z', ChangeAnalyzer.applyPatch (ChangeAnalyzer.diff_field x y f) z = Some z'
        ∧ z' !! f = y !! f
        ∧ ∀ g, g ≠ f → z' !! g = z !! g.
Proof.
  intros Hz. unfold ChangeAnalyzer.diff_field.
  destruct (x !! f) as [a|] eqn:Hx, (y !! f) as [b|] eqn:Hy.
  - destruct (decide (a = b)) as [->|Hne].
    + exists z. split; [reflexivity |]. split; [congruence | auto].
    + exists (<[f := b]> z). cbn [ChangeAnalyzer.applyPatch].
      rewrite (applyOperation_replace f b a z Hz).
      split; [reflexivity |]. split; [apply lookup_insert_eq |].
      intros g Hg. apply lookup_insert_ne. congruence.
  - exists (base.delete f z). cbn [ChangeAnalyzer.applyPatch].
    rewrite (applyOperation_remove f a z Hz).
    split; [reflexivity |]. split; [apply lookup_delete_eq |].
    intros g Hg. apply lookup_delete_ne. congruence.
  - exists (<[f := b]> z). cbn [ChangeAnalyzer.applyPatch].
    rewrite applyOperation_add.
    split; [reflexivity |]. split; [apply lookup_insert_eq |].
    intros g Hg. apply lookup_insert_ne. congruence.
  - exists z. split; [reflexivity |]. split; [congruence | auto].
Qed.

Lemma applyPatch_diff_fields (fields : list string) :
  NoDup fields →
  ∀ x y z : NormalizedObject V,
    (∀ f, f ∈ fields → z !! f = x !! f) →
    ∃ z', ChangeAnalyzer.applyPatch (ChangeAnalyzer.diff fields x y) z = Some z'
          ∧ (∀ f, f ∈ fields → z' !! f = y !! f)
          ∧ (∀ f, f ∉ fields → z' !! f = z !! f).
Proof.
  induction 1 as [|f fields Hnotin Hnodup IH]; intros x y z Hz.
  - exists z. split; [reflexivity |]. split; [| auto].
    intros f Hf. inversion Hf.
  - destruct (applyPatch_diff_field x y z f) as (z1 & Hap & Hf1 & Hother).
    { apply Hz. left. }
    destruct (IH x y z1) as (z' & Hap' & Hin & Hout).
    { intros g Hg. rewrite Hother; [apply Hz; right; exact Hg |].
      intros ->. contradiction. }
    exists z'. split; [| split].
    + change (ChangeAnalyzer.diff (f :: fields) x y)
        with (ChangeAnalyzer.diff_field x y f ++ ChangeAnalyzer.diff fields x y).
      rewrite applyPatch_app, Hap. exact Hap'.
    + intros g Hg. apply elem_of_cons in Hg as [->|Hg]; [| auto].
      rewrite Hout; [exact Hf1 | exact Hnotin].
    + intros g Hg. apply not_elem_of_cons in Hg as [Hne Hg].
      rewrite Hout; [auto | exact Hg].
Qed.

(** C9: [diff] is a function of its two arguments alone; the diff of an
    object with itself is empty; and for two objects of an entity kind (every
    field they have is one of the declared fields), applying [diff x y] to
    [x] yields [y]. *)
Theorem diff_correct (fields : list string) (x y : NormalizedObject V) :
  NoDup fields →
  dom x ⊆ list_to_set fields →
  dom y ⊆ list_to_set fields →
  ChangeAnalyzer.diff fields x x = []
  ∧ ChangeAnalyzer.applyPatch (ChangeAnalyzer.diff fields x y) x = Some y.
Proof.
  intros Hnodup Hx Hy. split; [apply diff_same |].
  destruct (applyPatch_diff_fields fields Hnodup x y x) as (z & Hap & Hin & Hout);
    [auto |].
  rewrite Hap. f_equal. apply map_eq. intros f.
  destruct (decide (f ∈ fields)) as [Hf|Hf]; [auto |].
  rewrite Hout by exact Hf.
  assert (Hset : f ∉ (list_to_set fields : gset string)) by set_solver.
  assert (Hxf : x !! f = None).
  { apply not_elem_of_dom. set_solver. }
  assert (Hyf : y !! f = None).
  { apply not_elem_of_dom. set_solver. }
  congruence.
Qed.

Lemma diff_field_agree (x y : NormalizedObject V) (f : string) :
  x !! f = y !! f → ChangeAnalyzer.diff_field x y f = [].
Proof.
  intros Hf. unfold ChangeAnalyzer.diff_field. rewrite Hf.
  destruct (y !! f) as [b|]; [| reflexivity].
  destruct (decide (b = b)); [reflexivity | congruence].
Qed.

Lemma diff_agree (fields : list string) (x y : NormalizedObject V) :
  (∀ f, f ∈ fields → x !! f = y !! f) → ChangeAnalyzer.diff fields x y = [].
Proof.
  unfold ChangeAnalyzer.diff.
  induction fields as [|f fields IH]; intros Hf; simpl; [reflexivity |].
  rewrite diff_field_agree by (apply Hf; left).
  apply IH. intros g Hg. apply Hf. right. exact Hg.
Qed.

(** One changed field gives one [Replace] on its path with the new value. *)
Lemma diff_single_field (fields : list string) (x y : NormalizedObject V)
    (f0 : string) (a b : V) :
  NoDup fields → f0 ∈ fields →
  x !! f0 = Some a → y !! f0 = Some b → a ≠ b →
  (∀ f, f ∈ fields → f ≠ f0 → x !! f = y !! f) →
  ChangeAnalyzer.diff fields x y = [mkOperation Replace (field_path f0) (Some b)].
Proof.
  intros Hnodup. revert f0.
  induction Hnodup as [|f fields Hnotin Hnodup IH]; intros f0 Hin Hx Hy Hab Hrest.
  - inversion Hin.
  - change (ChangeAnalyzer.diff (f :: fields) x y)
      with (ChangeAnalyzer.diff_field x y f ++ ChangeAnalyzer.diff fields x y).
    destruct (decide (f = f0)) as [->|Hne].
    + rewrite diff_agree.
      * unfold ChangeAnalyzer.diff_field. rewrite Hx, Hy.
        destruct (decide (a = b)); [contradiction | reflexivity].
      * intros g Hg. apply Hrest; [right; exact Hg |].
        intros ->. contradiction.
    + rewrite diff_field_agree by (apply Hrest; [left | exact Hne]).
      apply elem_of_cons in Hin as [->|Hin]; [contradiction |].
      apply IH; auto. intros g Hg Hg0. apply Hrest; [right; exact Hg | exact Hg0].
Qed.

End ChangeAnalyzerFacts.

Lemma diff_correct_witness :
  NoDup sample_schema
  ∧ dom ({["title" := "Old"]} : NormalizedObject string)
      ⊆ list_to_set sample_schema
  ∧ dom ({["title" := "New"; "abstract" := "A"]} : NormalizedObject string)
      ⊆ list_to_set sample_schema
  ∧ ChangeAnalyzer.applyPatch
      (ChangeAnalyzer.diff sample_schema
         ({["title" := "Old"]} : NormalizedObject string)
         {["title" := "New"; "abstract" := "A"]})
      {["title" := "Old"]}
    = Some {["title" := "New"; "abstract" := "A"]}.
Proof.
  assert (H1 : NoDup sample_schema) by (apply (bool_decide_unpack _); vm_compute; reflexivity).
  assert (H2 : dom ({["title" := "Old"]} : NormalizedObject string)
                 ⊆ list_to_set sample_schema)
    by (unfold sample_schema; set_solver).
  assert (H3 : dom ({["title" := "New"; "abstract" := "A"]} : NormalizedObject string)
                 ⊆ list_to_set sample_schema)
    by (unfold sample_schema; set_solver).
  split; [exact H1 |]. split; [exact H2 |]. split; [exact H3 |].
  exact (proj2 (diff_correct sample_schema _ _ H1 H2 H3)).
Defined.

Example diff_title_example :
  ChangeAnalyzer.diff sample_schema
    ({["title" := "Old"]} : NormalizedObject string)
    {["title" := "New"; "abstract" := "A"]}
  = [mkOperation Replace "/title" (Some "New");
     mkOperation Add "/abstract" (Some "A")].
Proof. vm_compute. reflexivity. Qed.

(** ** The normalized object cache *)

Section ObjectCacheFacts.

Context {V : Type} `{EqDecision V}.

(** C6: on an address that has an entry, [put] replaces the object and the
    request id of the entry and nothing else: its pending patches (and its
    [lastUpdated]) are those of the entry before, and the entries of the
    other addresses are untouched. *)
Theorem put_preserves_pendingPatches
    (now : N) (address : string) (o : NormalizedObject V) (rid : RequestId)
    (c : ObjectCacheState V) (e : CacheEntry V) :
  c !! address = Some e →
  ObjectCache.put now address o rid c !! address
    = Some (mkCacheEntry o (Some rid) (pendingPatches e) (lastUpdated e))
  ∧ (pendingPatches <$> ObjectCache.put now address o rid c !! address)
    = Some (pendingPatches e)
  ∧ ∀ other, other ≠ address →
      ObjectCache.put now address o rid c !! other = c !! other.
Proof.
  intros He. unfold ObjectCache.put. rewrite He.
  split; [apply lookup_insert_eq |].
  split; [rewrite lookup_insert_eq; reflexivity |].
  intros other Hne. apply lookup_insert_ne. congruence.
Qed.

Lemma addPatch_lookup
    (now : N) (address : string) (ops : list (Operation V))
    (c : ObjectCacheState V) :
  ObjectCache.addPatch now address ops c !! address =
    let e := default (ObjectCache.placeholder now) (c !! address) in
    Some (mkCacheEntry (object e) (requestId e) (pendingPatches e ++ ops)
            (lastUpdated e)).
Proof. unfold ObjectCache.addPatch. apply lookup_insert_eq. Qed.

Lemma addPatch_lookup_ne
    (now : N) (address other : string) (ops : list (Operation V))
    (c : ObjectCacheState V) :
  other ≠ address →
  ObjectCache.addPatch now address ops c !! other = c !! other.
Proof. intros Hne. unfold ObjectCache.addPatch. apply lookup_insert_ne. congruence. Qed.

(** C7: after [addPatch(addr, ops)] a read of [addr] returns the view made of
    [ops] applied, in order, over what the cache last knew for [addr] (the
    view before the call, the empty placeholder object when there was no
    entry); no flush is involved, the patches stay pending behind the ones
    that were already there. A read leaves the cache as it is, so every
    later read returns the same view. *)
Theorem addPatch_read_your_writes
    (now : N) (addr : string) (ops : list (Operation V))
    (c : ObjectCacheState V) :
  (object <$> ObjectCache.get addr (ObjectCache.addPatch now addr ops c))
    = ObjectCache.lastKnown addr c ≫= ChangeAnalyzer.applyPatch ops
  ∧ (pendingPatches <$> ObjectCache.addPatch now addr ops c !! addr)
    = Some (default [] (pendingPatches <$> c !! addr) ++ ops).
Proof.
  split.
  - unfold ObjectCache.get, ObjectCache.lastKnown, ObjectCache.materialize.
    rewrite addPatch_lookup. cbn zeta.
    destruct (c !! addr) as [e|]; unfold default; cbn [from_option Datatypes.id
      object pendingPatches ObjectCache.placeholder requestId lastUpdated].
    + rewrite applyPatch_app.
      generalize (ChangeAnalyzer.applyPatch (pendingPatches e) (object e)
                    ≫= ChangeAnalyzer.applyPatch ops).
      intros [o|]; reflexivity.
    + change (ChangeAnalyzer.applyPatch ([] ++ ops) ∅)
        with (ChangeAnalyzer.applyPatch ops (∅ : NormalizedObject V)).
      change (Some (∅ : NormalizedObject V) ≫= ChangeAnalyzer.applyPatch ops)
        with (ChangeAnalyzer.applyPatch ops (∅ : NormalizedObject V)).
      generalize (ChangeAnalyzer.applyPatch ops (∅ : NormalizedObject V)).
      intros [o|]; reflexivity.
  - rewrite addPatch_lookup. cbn zeta.
    destruct (c !! addr) as [e|]; reflexivity.
Qed.

End ObjectCacheFacts.

Lemma put_preserves_pendingPatches_witness :
  ({["self" := mkCacheEntry ({["title" := "Old"]} : NormalizedObject string)
               (Some 0%nat) [mkOperation Replace "/title" (Some "Mine")] 3%N]}
     : ObjectCacheState string) !! "self"
    = Some (mkCacheEntry {["title" := "Old"]} (Some 0%nat)
              [mkOperation Replace "/title" (Some "Mine")] 3%N)
  ∧ (pendingPatches <$>
       ObjectCache.put 9%N "self" {["title" := "Theirs"]} 1%nat
         ({["self" := mkCacheEntry ({["title" := "Old"]} : NormalizedObject string)
                      (Some 0%nat) [mkOperation Replace "/title" (Some "Mine")] 3%N]}
            : ObjectCacheState string) !! "self")
    = Some [mkOperation Replace "/title" (Some "Mine")].
Proof.
  split; [apply lookup_singleton_eq |].
  exact (proj1 (proj2 (put_preserves_pendingPatches 9%N "self"
                         {["title" := "Theirs"]} 1%nat _ _
                         (lookup_singleton_eq _ _)))).
Defined.

(** ** The request tracker *)

Module RequestServiceFacts.

Import RequestService.

Lemma find_app_Some {A : Type} (p : A → bool) (l l' : list A) (x : A) :
  List.find p l = Some x → List.find p (l ++ l') = Some x.
Proof.
  induction l as [|y l IH]; simpl; [discriminate |].
  destruct (p y); [auto | exact IH].
Qed.

Lemma find_app_None {A : Type} (p : A → bool) (l l' : list A) :
  List.find p l = None → List.find p (l ++ l') = List.find p l'.
Proof.
  induction l as [|y l IH]; simpl; [reflexivity |].
  destruct (p y); [discriminate | exact IH].
Qed.


Lemma find_map_preserve {A : Type} (p : A → bool) (f : A → A) (l : list A) :
  (∀ x, p (f x) = p x) →
  List.find p (List.map f l) = option_map f (List.find p l).
Proof.
  intros Hp. induction l as [|x l IH]; simpl; [reflexivity |].
  rewrite Hp. destruct (p x); [reflexivity | exact IH].
Qed.

Lemma find_all_false {A : Type} (p : A → bool) (l : list A) :
  (∀ x, In x l → p x = false) → List.find p l = None.
Proof.
  induction l as [|y l IH]; intros Hp; simpl; [reflexivity |].
  rewrite (Hp y) by (left; reflexivity). apply IH.
  intros x Hx. apply Hp. right. exact Hx.
Qed.



(** *** What the transitions keep of an entry *)

Lemma settle_id i resp e : id (settle i resp e) = id e.
Proof. unfold settle. destruct (_ && _); reflexivity. Qed.


Lemma settle_other i resp e : id e ≠ i → settle i resp e = e.
Proof.
  intros Hne. unfold settle. rewrite bool_decide_eq_false_2 by exact Hne.
  reflexivity.
Qed.

Lemma settle_terminal i resp e : is_pending e = false → settle i resp e = e.
Proof.
  intros Hp. unfold settle. rewrite Hp, andb_false_r. reflexivity.
Qed.


Lemma settle_own i resp e :
  id e = i → is_pending e = true →
  settle i resp e =
    mkRequestEntry i (address e)
      (if isSuccessful resp then ResponseSuccess else ResponseError)
      (Some resp) true (timestamp e) (stale e).
Proof.
  intros Hi Hp. unfold settle. rewrite bool_decide_eq_true_2 by exact Hi.
  rewrite Hp, Hi. reflexivity.
Qed.

Lemma mark_stale_id a e : id (mark_stale a e) = id e.
Proof. unfold mark_stale. destruct (bool_decide _); reflexivity. Qed.


Lemma mark_stale_pending a e : is_pending (mark_stale a e) = is_pending e.
Proof. unfold mark_stale. destruct (bool_decide _); reflexivity. Qed.

Lemma mark_stale_completed a e : completed (mark_stale a e) = completed e.
Proof. unfold mark_stale. destruct (bool_decide _); reflexivity. Qed.

Lemma mark_stale_response a e : response (mark_stale a e) = response e.
Proof. unfold mark_stale. destruct (bool_decide _); reflexivity. Qed.

Lemma ids_below_fresh (s : RequestState) :
  ids_below s = true →
  forallb (λ e, negb (bool_decide (id e = next_id s))) (entries s) = true.
Proof.
  unfold ids_below. rewrite !forallb_forall.
  intros Hids e He. specialize (Hids e He). apply Nat.ltb_lt in Hids.
  apply negb_true_iff, bool_decide_eq_false_2. lia.
Qed.

(** A request of a kind followed by id, configured under a fresh id, is
    handed to the transport and awaited. *)
Lemma configure_fresh_identity (r : RestRequest) (s : RequestState) :
  identity_sensitive (kind r) = true →
  forallb (λ e, negb (bool_decide (id e = uuid r))) (entries s) = true →
  configure r s =
    mkRequestState (entries s ++ [pending_entry r (clock s)])
      (next_id s) (clock s) (ttl s) (sent s ++ [r])
  ∧ awaiting (uuid r) (configure r s).
Proof.
  intros Hk Hfresh.
  assert (Hl : RequestService.lookup r s = None).
  { unfold RequestService.lookup. rewrite forallb_forall in Hfresh.
    destruct (List.find _ (entries s)) as [e|] eqn:Hf; [| reflexivity].
    apply find_some in Hf as [Hin Hc]. specialize (Hfresh e Hin).
    unfold same_target in Hc. rewrite Hk in Hc.
    apply negb_true_iff in Hfresh. rewrite Hfresh in Hc. discriminate. }
  unfold configure. rewrite Hl. split; [reflexivity |].
  exists (pending_entry r (clock s)). split; [| split; reflexivity].
  unfold getByUUID. cbn [entries]. rewrite find_app_None.
  - simpl. rewrite bool_decide_eq_true_2 by reflexivity. reflexivity.
  - apply find_all_false. intros x Hx. rewrite forallb_forall in Hfresh.
    specialize (Hfresh x Hx). apply negb_true_iff in Hfresh. exact Hfresh.
Qed.

End RequestServiceFacts.

Module Dedup.

Import RequestService RequestServiceFacts.

(** *** The reading of the data service is one of the policies *)

Lemma acceptable_under_service s e :
  acceptable_under service_policy s e = acceptable s e.
Proof.
  unfold acceptable_under, acceptable. cbn [invalidation_reaches_pending
    service_policy andb negb]. rewrite andb_true_r. reflexivity.
Qed.

Lemma lookup_under_service r s :
  lookup_under service_policy r s = RequestService.lookup r s.
Proof.
  unfold lookup_under, RequestService.lookup.
  induction (entries s) as [|e l IH]; simpl; [reflexivity |].
  rewrite acceptable_under_service.
  change (same_target_under service_policy r e) with (same_target r e).
  destruct (same_target r e && acceptable s e); [reflexivity | exact IH].
Qed.

Lemma configure_under_service r s :
  configure_under service_policy r s = configure r s.
Proof.
  unfold configure_under, configure. rewrite lookup_under_service. reflexivity.
Qed.

Lemma step_under_service ev s : step_under service_policy ev s = step ev s.
Proof.
  destruct ev; simpl; try reflexivity.
  unfold call_under, call. cbn [generateRequestId].
  apply configure_under_service.
Qed.

Lemma run_under_service evs : ∀ s, run_under service_policy evs s = run evs s.
Proof.
  induction evs as [|ev evs IH]; intros s; simpl; [reflexivity |].
  rewrite step_under_service. apply IH.
Qed.

(** *** Acceptable entries *)

Section Policy.

Variable P : Policy.







(** *** The pending window *)






(** *** At most one request in flight *)





End Policy.

End Dedup.


(** ** [delete] *)

Module DeleteStream.

Import RequestService RequestServiceFacts.

Lemma getByUUID_id i s e : getByUUID i s = Some e → id e = i.
Proof.
  unfold getByUUID. intros Hf. apply find_some in Hf as [_ Hd].
  apply bool_decide_eq_true_1 in Hd. exact Hd.
Qed.

Lemma awaiting_step i s ev :
  awaiting i s → is_completion_of i ev = false → awaiting i (step ev s).
Proof.
  intros (e & Hg & Hp & Hc) Hev.
  destruct ev as [k a b | j resp | a | d]; simpl.
  - exists e. split; [| auto]. unfold call. cbn [generateRequestId].
    unfold configure. destruct (RequestService.lookup _ _); [exact Hg |].
    unfold getByUUID. cbn [entries]. apply find_app_Some. exact Hg.
  - simpl in Hev. apply bool_decide_eq_false_1 in Hev.
    exists e. split; [| auto]. unfold getByUUID, complete. cbn [entries].
    rewrite find_map_preserve by (intros x; rewrite settle_id; reflexivity).
    unfold getByUUID in Hg. rewrite Hg. simpl. f_equal.
    apply settle_other. rewrite (getByUUID_id i s e Hg). congruence.
  - exists (mark_stale a e).
    rewrite mark_stale_pending, mark_stale_completed. split; [| auto].
    unfold getByUUID, invalidateByAddress. cbn [entries].
    rewrite find_map_preserve by (intros x; rewrite mark_stale_id; reflexivity).
    unfold getByUUID in Hg. rewrite Hg. reflexivity.
  - exists e. auto.
Qed.

Lemma delete_stream_skip i s e states :
  getByUUID i s = Some e → completed e = false →
  delete_stream i (s :: states) = delete_stream i states.
Proof.
  intros Hg Hc. unfold delete_stream. cbn [omap list_omap]. rewrite Hg.
  unfold Rx.find. cbn [List.find]. rewrite Hc. reflexivity.
Qed.

Lemma delete_stream_hit i s e r states :
  getByUUID i s = Some e → completed e = true → response e = Some r →
  delete_stream i (s :: states) = SNext (isSuccessful r).
Proof.
  intros Hg Hc Hr. unfold delete_stream. cbn [omap list_omap]. rewrite Hg.
  unfold Rx.find. cbn [List.find]. rewrite Hc, Hr. reflexivity.
Qed.

Lemma trace_head evs s : ∃ states, trace evs s = s :: states.
Proof. destruct evs; simpl; eauto. Qed.

(** The stream stays silent while the request is awaited and emits the
    success flag of the response at the first completion. *)
Lemma delete_stream_completion i resp post pre :
  ∀ s, awaiting i s →
    forallb (λ ev, negb (is_completion_of i ev)) pre = true →
    delete_stream i (trace (pre ++ EComplete i resp :: post) s)
      = SNext (isSuccessful resp).
Proof.
  induction pre as [|ev pre IH]; intros s Haw Hpre.
  - destruct Haw as (e & Hg & Hp & Hc). simpl.
    rewrite (delete_stream_skip i s e _ Hg Hc).
    destruct (trace_head post (complete i resp s)) as [states ->].
    apply (delete_stream_hit i _ (settle i resp e)).
    + unfold getByUUID, complete. cbn [entries].
      rewrite find_map_preserve by (intros x; rewrite settle_id; reflexivity).
      unfold getByUUID in Hg. rewrite Hg. reflexivity.
    + rewrite (settle_own i resp e (getByUUID_id i s e Hg) Hp). reflexivity.
    + rewrite (settle_own i resp e (getByUUID_id i s e Hg) Hp). reflexivity.
  - simpl in Hpre. apply andb_true_iff in Hpre as [Hev Hpre].
    apply negb_true_iff in Hev. simpl.
    destruct Haw as (e & Hg & Hp & Hc).
    rewrite (delete_stream_skip i s e _ Hg Hc).
    apply IH; [| exact Hpre].
    apply awaiting_step; [| exact Hev]. exists e. auto.
Qed.

End DeleteStream.

Section DataServiceFacts.

Context {V TDomain RD RDList Json : Type} `{EqDecision V}.
Context `{!DataService V TDomain RD RDList Json}.

(** [delete] takes an id, configures the DELETE request on the first
    endpoint href, and touches nothing else. *)
Lemma delete_effect (w : World V) (dso : TDomain)
    (endpoint : Address) (more : list Address) :
  halService_getEndpoint linkPath = endpoint :: more →
  delete dso w =
    (Ok (next_id (data_request (store w))),
     mkWorld
       (mkCoreState (cache_object (store w))
          (RequestService.configure
             (DeleteByIDRequest (next_id (data_request (store w)))
                (Some (getIDHref endpoint (uuid_of dso))) (uuid_of dso))
             (snd (RequestService.generateRequestId (data_request (store w))))))
       (notifications w)).
Proof.
  intros Hend. unfold delete, mbind, M_bind, fresh_id, modify, mret, M_ret.
  cbn. unfold subscribe_found. rewrite Hend. reflexivity.
Qed.

(** C5: a [delete] whose request the transport completes with a failure:
    the request was handed to the transport under the generated id, the
    returned stream emits the success flag of the first completed state of
    that entry, here [false], and [delete] has left the object cache as it
    was: no entry is removed. *)
Theorem delete_reports_failure
    (w : World V) (dso : TDomain) (endpoint : Address) (more : list Address)
    (pre post : list RequestService.Event) (resp : RestResponse) :
  RequestService.ids_below (data_request (store w)) = true →
  halService_getEndpoint linkPath = endpoint :: more →
  forallb
    (λ ev, negb (RequestService.is_completion_of
                   (next_id (data_request (store w))) ev)) pre = true →
  isSuccessful resp = false →
  ∃ w1,
    delete dso w = (Ok (next_id (data_request (store w))), w1)
    ∧ sent (data_request (store w1))
      = sent (data_request (store w))
          ++ [DeleteByIDRequest (next_id (data_request (store w)))
                (Some (getIDHref endpoint (uuid_of dso))) (uuid_of dso)]
    ∧ cache_object (store w1) = cache_object (store w)
    ∧ delete_stream (next_id (data_request (store w)))
        (RequestService.trace
           (pre ++ RequestService.EComplete
                     (next_id (data_request (store w))) resp :: post)
           (data_request (store w1)))
      = SNext (isSuccessful resp)
    ∧ delete_stream (next_id (data_request (store w)))
        (RequestService.trace
           (pre ++ RequestService.EComplete
                     (next_id (data_request (store w))) resp :: post)
           (data_request (store w1)))
      = SNext false.
Proof.
  intros Hids Hend Hpre Hfail.
  rewrite (delete_effect w dso endpoint more Hend).
  eexists. split; [reflexivity |]. cbn [store data_request cache_object].
  set (rid := next_id (data_request (store w))) in *.
  set (r := DeleteByIDRequest rid (Some (getIDHref endpoint (uuid_of dso)))
              (uuid_of dso)).
  destruct (RequestServiceFacts.configure_fresh_identity r
              (snd (RequestService.generateRequestId (data_request (store w)))))
    as [Hconf Haw]; [reflexivity | exact (RequestServiceFacts.ids_below_fresh _ Hids) |].
  split; [rewrite Hconf; reflexivity |].
  split; [reflexivity |].
  assert (Hstream :
    delete_stream rid
      (RequestService.trace (pre ++ RequestService.EComplete rid resp :: post)
         (RequestService.configure r
            (snd (RequestService.generateRequestId (data_request (store w))))))
    = SNext (isSuccessful resp)).
  { apply DeleteStream.delete_stream_completion; [exact Haw | exact Hpre]. }
  split; [exact Hstream |]. rewrite Hstream, Hfail. reflexivity.
Qed.


(** *** [update] *)

Lemma configure_fresh_cache (mk : RequestId → RestRequest) (w : World V) :
  cache_object (store (configure_fresh mk w)) = cache_object (store w)
  ∧ notifications (configure_fresh mk w) = notifications w.
Proof. unfold configure_fresh. split; reflexivity. Qed.

(** [findById] returns the read model of its hrefs and only touches the
    request store. *)
Lemma findById_effect (i : string) (w : World V) :
  ∃ w', findById i w =
          (Ok (rdbService_buildSingle
                 (OfObs (Rx.map (λ endpoint, Some (getIDHref endpoint i))
                           (halService_getEndpoint linkPath)))), w')
        ∧ cache_object (store w') = cache_object (store w).
Proof.
  unfold findById, mbind, M_bind, modify, mret, M_ret. cbn.
  eexists. split; [reflexivity |].
  unfold subscribe_found.
  destruct (Rx.find _ _); [apply configure_fresh_cache |].
  destruct (halService_getEndpoint_completed linkPath);
    [apply configure_fresh_cache | reflexivity].
Qed.

(** The request store after [findById], as a function of the store before:
    the cache plays no part. *)
Lemma findById_requests (i : string) (w w0 : World V) :
  data_request (store w) = data_request (store w0) →
  data_request (store (snd (findById i w)))
    = data_request (store (snd (findById i w0))).
Proof.
  intros Hreq. unfold findById, mbind, M_bind, modify, mret, M_ret. cbn.
  unfold subscribe_found.
  destruct (Rx.find _ _);
    [unfold configure_fresh; rewrite Hreq; reflexivity |].
  destruct (halService_getEndpoint_completed linkPath); [| exact Hreq].
  unfold configure_fresh. rewrite Hreq. reflexivity.
Qed.

(** C3, as the method has it: a subscriber of [update(obj)] whose object is
    in the cache gets the read model of [findById(obj.uuid)]. When the
    change analyzer is the field-by-field one and only the field [title]
    differs between the cached old version and the normalized new one, the
    single operation [Replace /title] with the new value is appended to the
    pending patches of [obj.self]; when the diff is empty the object cache
    is left as it was. In both cases [findById(obj.uuid)] is called, and
    the request store ends as that call leaves it. *)
Theorem update_patches
    (w : World V) (o : TDomain) (oldEntry : CacheEntry V)
    (newVersion : NormalizedObject V) :
  ObjectCache.get (self_of o) (cache_object (store w)) = Some oldEntry →
  dataBuildService_normalize o = Ok newVersion →
  ∃ rd w',
    update o w = (Ok (SNext rd), w')
    ∧ fst (findById (uuid_of o) w) = Ok rd
    ∧ data_request (store w')
      = data_request (store (snd (findById (uuid_of o) w)))
    ∧ (∀ fields a b,
         (∀ x y, comparator_diff x y = ChangeAnalyzer.diff fields x y) →
         NoDup fields → "title" ∈ fields →
         object oldEntry !! "title" = Some a →
         newVersion !! "title" = Some b →
         a ≠ b →
         (∀ f, f ∈ fields → f ≠ "title" → object oldEntry !! f = newVersion !! f) →
         cache_object (store w')
           = ObjectCache.addPatch (clock (data_request (store w))) (self_of o)
               [mkOperation Replace "/title" (Some b)] (cache_object (store w)))
    ∧ (comparator_diff (object oldEntry) newVersion = [] →
         cache_object (store w') = cache_object (store w)).
Proof.
  intros Hget Hnorm.
  set (operations := comparator_diff (object oldEntry) newVersion).
  set (w1 := if isNotEmpty operations
             then on_cache
                    (ObjectCache.addPatch (clock (data_request (store w)))
                       (self_of o) operations) w
             else w).
  assert (Hreq1 : data_request (store w1) = data_request (store w)).
  { unfold w1. destruct (isNotEmpty operations); reflexivity. }
  destruct (findById_effect (uuid_of o) w1) as (w' & Hfind & Hcache).
  destruct (findById_effect (uuid_of o) w) as (w0' & Hfind0 & _).
  exists (rdbService_buildSingle
            (OfObs (Rx.map (λ endpoint, Some (getIDHref endpoint (uuid_of o)))
                      (halService_getEndpoint linkPath)))), w'.
  assert (Hupd : update o w =
            (Ok (SNext (rdbService_buildSingle
               (OfObs (Rx.map (λ endpoint, Some (getIDHref endpoint (uuid_of o)))
                         (halService_getEndpoint linkPath))))), w')).
  { unfold update, getBySelfLink. rewrite Hget. cbn [Rx.first head].
    rewrite Hnorm. fold operations. fold w1.
    unfold mbind, M_bind. rewrite Hfind. reflexivity. }
  split; [exact Hupd |].
  split; [rewrite Hfind0; reflexivity |].
  split.
  { pose proof (findById_requests (uuid_of o) w1 w Hreq1) as Hr.
    rewrite Hfind in Hr. exact Hr. }
  split.
  - intros fields a b Hdiff Hnodup Hin Ha Hb Hab Hrest.
    assert (Hops : operations = [mkOperation Replace "/title" (Some b)]).
    { unfold operations. rewrite Hdiff.
      apply (diff_single_field fields _ _ "title" a b); auto. }
    rewrite Hcache. unfold w1. rewrite Hops. reflexivity.
  - intros Hempty. rewrite Hcache. unfold w1.
    fold operations in Hempty. rewrite Hempty. reflexivity.
Qed.

(** *** Synchronous failures *)

(** C4, as the methods have it: a failure of the transport or of a lookup
    never makes a public operation throw, since [findAll], [findById],
    [findByHref], [patch], [update] and [delete] return for every input,
    and so does the callback of the stream [create] returns, for every
    response; [create] itself normalizes and serializes its argument before
    it builds any stream, and throws exactly when one of the two does. *)
Theorem public_operations_sync
    (w : World V) (options : FindAllOptions) (i : string) (h : Address)
    (ph : string) (operations : list (Operation V)) (o dso : TDomain)
    (parentUUID : option string) (resp : RestResponse) :
  (∃ rd w', findAll options w = (Ok rd, w'))
  ∧ (∃ rd w', findById i w = (Ok rd, w'))
  ∧ (∃ rd w', findByHref h w = (Ok rd, w'))
  ∧ (∃ w', patch ph operations w = (Ok tt, w'))
  ∧ (∃ ev w', update o w = (Ok ev, w'))
  ∧ (∃ rid w', delete dso w = (Ok rid, w'))
  ∧ (∃ ev w', create_response resp w = (Ok ev, w'))
  ∧ (∀ e, (∃ w', create dso parentUUID w = (Throw e, w'))
          ↔ (dataBuildService_normalize dso = Throw e
             ∨ ∃ n, dataBuildService_normalize dso = Ok n
                    ∧ serializer_serialize (type_of dso) n = Throw e)).
Proof.
  split; [unfold findAll, mbind, M_bind, modify, mret, M_ret; cbn; eauto |].
  split; [unfold findById, mbind, M_bind, modify, mret, M_ret; cbn; eauto |].
  split; [unfold findByHref, mbind, M_bind, modify, mret, M_ret; cbn; eauto |].
  split; [unfold patch, modify; eauto |].
  split.
  { unfold update.
    destruct (Rx.first _); [| eauto].
    destruct (dataBuildService_normalize o); [| eauto].
    unfold findById, mbind, M_bind, modify, mret, M_ret; cbn; eauto. }
  split.
  { unfold delete, mbind, M_bind, fresh_id, modify, mret, M_ret; cbn; eauto. }
  split.
  { unfold create_response.
    destruct (negb (isSuccessful resp) && instanceofErrorResponse resp);
      unfold findByHref, mbind, M_bind, modify, mret, M_ret; cbn; eauto. }
  intros e. unfold create, mbind, M_bind, fresh_id, lift, modify, mret, M_ret.
  cbn.
  destruct (dataBuildService_normalize dso) as [n|e1] eqn:Hnorm.
  - destruct (serializer_serialize (type_of dso) n) as [j|e2] eqn:Hser.
    + split.
      * intros [w' Hw']. discriminate.
      * intros [Hn | (n' & Hn & Hs)]; [discriminate |].
        injection Hn as <-. congruence.
    + split.
      * intros [w' Hw']. injection Hw' as -> _. right. eauto.
      * intros [Hn | (n' & Hn & Hs)]; [discriminate |].
        injection Hn as <-. rewrite Hser in Hs. injection Hs as ->. eauto.
  - split.
    + intros [w' Hw']. injection Hw' as -> _. left. reflexivity.
    + intros [Hn | (n' & Hn & Hs)]; [| discriminate].
      injection Hn as ->. eauto.
Qed.


End DataServiceFacts.

(** An update that changes nothing still configures the read request of
    [findById], and with nothing tracked for its href the request goes to
    the transport. *)
Lemma update_unchanged_dispatches :
  comparator_diff (DataService := sample_service total_serializer)
    ({["title" := "T"]} : NormalizedObject string) (sample_fields sample_item) = []
  ∧ sent (data_request (store cached_world)) = []
  ∧ sent (data_request (store (snd
      (update (DataService0 := sample_service total_serializer)
         sample_item cached_world))))
    = [FindByIDRequest 0%nat (Some "https://rest/api/items/42") "42"].
Proof. vm_compute. repeat split; reflexivity. Qed.

Lemma update_patches_witness :
  ObjectCache.get (self_of (DataService := sample_service total_serializer)
                     retitled_item)
      (cache_object (store cached_world))
    = Some (mkCacheEntry {["title" := "T"]} None [] 0%N)
  ∧ dataBuildService_normalize (DataService := sample_service total_serializer)
      retitled_item = Ok {["title" := "U"]}
  ∧ ∃ rd w',
      update (DataService0 := sample_service total_serializer)
        retitled_item cached_world = (Ok (SNext rd), w')
      ∧ (pendingPatches <$>
           cache_object (store w') !! "https://rest/api/items/42")
        = Some [mkOperation Replace "/title" (Some "U")].
Proof.
  assert (Hget :
    ObjectCache.get (self_of (DataService := sample_service total_serializer)
                       retitled_item)
        (cache_object (store cached_world))
      = Some (mkCacheEntry {["title" := "T"]} None [] 0%N))
    by (vm_compute; reflexivity).
  split; [exact Hget |]. split; [reflexivity |].
  destruct (update_patches (DataService0 := sample_service total_serializer)
              cached_world retitled_item _ _ Hget eq_refl)
    as (rd & w' & Hupd & _ & _ & Htitle & _).
  exists rd, w'. split; [exact Hupd |].
  rewrite (Htitle sample_schema "T" "U").
  - vm_compute. reflexivity.
  - reflexivity.
  - apply (bool_decide_unpack _). vm_compute. reflexivity.
  - unfold sample_schema. set_solver.
  - vm_compute. reflexivity.
  - vm_compute. reflexivity.
  - discriminate.
  - intros f Hf Hne. unfold sample_schema in Hf.
    apply elem_of_cons in Hf as [->|Hf]; [contradiction |].
    apply list_elem_of_singleton in Hf as ->. vm_compute. reflexivity.
Defined.

(** [create] with a serializer that fails throws to its caller. *)
Lemma create_throws :
  fst (create (DataService0 := sample_service failing_serializer)
         sample_item None empty_world)
  = Throw "SerializationFailure".
Proof. vm_compute. reflexivity. Qed.

Lemma delete_reports_failure_witness :
  RequestService.ids_below (data_request (store cached_world)) = true
  ∧ halService_getEndpoint (DataService := sample_service total_serializer)
      (linkPath (DataService := sample_service total_serializer))
    = [Some "https://rest/api/items"]
  ∧ isSuccessful not_found = false
  ∧ ∃ w1,
      delete (DataService0 := sample_service total_serializer)
        sample_item cached_world = (Ok 0%nat, w1)
      ∧ cache_object (store w1) = cache_object (store cached_world)
      ∧ delete_stream 0%nat
          (RequestService.trace
             ([RequestService.ETick 1]
                ++ RequestService.EComplete 0%nat not_found :: [])
             (data_request (store w1)))
        = SNext false.
Proof.
  split; [reflexivity |]. split; [reflexivity |]. split; [reflexivity |].
  destruct (delete_reports_failure
              (DataService0 := sample_service total_serializer)
              cached_world sample_item (Some "https://rest/api/items") []
              [RequestService.ETick 1] [] not_found
              eq_refl eq_refl eq_refl eq_refl)
    as (w1 & Hdel & _ & Hcache & _ & Hstream).
  exists w1. split; [exact Hdel |]. split; [exact Hcache | exact Hstream].
Defined.

(** * Further properties of the data service *)

(** ** Which request an operation configures *)

Section Requests.

Context {V TDomain RD RDList Json : Type} `{EqDecision V}.
Context `{!DataService V TDomain RD RDList Json}.

Lemma take1_filter_find {A : Type} (p : A → bool) (o : Rx.Observable A) :
  Rx.take 1 (Rx.filter p o) =
    match Rx.find p o with
    | Some x => [x]
    | None => []
    end.
Proof.
  unfold Rx.take, Rx.filter, Rx.find.
  induction o as [|x o IH]; simpl; [reflexivity |].
  destruct (p x); [reflexivity | exact IH].
Qed.

Lemma findAll_effect (options : FindAllOptions) (w : World V) :
  findAll options w =
    (Ok (rdbService_buildList (getFindAllHref options None)),
     match Rx.find hasValue_str (getFindAllHref options None) with
     | Some h => configure_fresh (λ i, FindAllRequest i h options) w
     | None => w
     end).
Proof.
  unfold findAll, mbind, M_bind, modify, mret, M_ret.
  rewrite take1_filter_find.
  destruct (Rx.find hasValue_str (getFindAllHref options None)); reflexivity.
Qed.

(** [findAll] returns the read model of the href stream and configures one
    request at most, on the first href that has a value, however many hrefs
    the stream emits; the link path argument of [getFindAllHref] is left
    undefined. *)
Theorem findAll_first_href (options : FindAllOptions) (w : World V) :
  findAll options w =
    (Ok (rdbService_buildList (getFindAllHref options None)),
     match Rx.find hasValue_str (getFindAllHref options None) with
     | Some h => configure_fresh (λ i, FindAllRequest i h options) w
     | None => w
     end).
Proof. apply findAll_effect. Qed.

(** With a query argument present every href of [getFindAllHref] has a
    value, also where the endpoint stream emitted [undefined]: as many hrefs
    come out as endpoints went in, and [findAll] configures its request on
    the very first endpoint emission. *)
Theorem getFindAllHref_always_valued
    (options : FindAllOptions) (lp : option string) :
  findAll_args options ≠ [] →
  length (getFindAllHref options lp) = length (getBrowseEndpoint options lp)
  ∧ Forall (λ h, hasValue_str h = true) (getFindAllHref options lp)
  ∧ ∀ (w : World V) h0 more,
      getBrowseEndpoint options None = h0 :: more →
      snd (findAll options w) =
        configure_fresh
          (λ i, FindAllRequest i
                  (Some (URLCombiner_toString
                           [h0; Some ("?" +:+ join "&" (findAll_args options))]))
                  options) w.
Proof.
  intros Hargs.
  split; [| split].
  - rewrite (getFindAllHref_args options lp Hargs). apply length_map.
  - rewrite (getFindAllHref_args options lp Hargs). unfold Rx.map.
    apply Forall_map. apply List.Forall_forall. intros h _. reflexivity.
  - intros w h0 more Hend. rewrite findAll_effect. cbn [snd].
    rewrite (getFindAllHref_args options None Hargs), Hend. reflexivity.
Qed.

Lemma findById_request (i : string) (w : World V) :
  snd (findById i w) =
    match halService_getEndpoint linkPath with
    | endpoint :: _ =>
        configure_fresh
          (λ rid, FindByIDRequest rid (Some (getIDHref endpoint i)) i) w
    | [] =>
        if halService_getEndpoint_completed linkPath
        then configure_fresh (λ rid, FindByIDRequest rid None i) w
        else w
    end.
Proof.
  unfold findById, mbind, M_bind, modify, mret, M_ret, subscribe_found.
  destruct (halService_getEndpoint linkPath); reflexivity.
Qed.

(** The [hasValue] guard of [findById] never rejects an href: the request
    goes to the first endpoint emission followed by [/] and the id, also
    when that emission is [undefined]. When the endpoint stream has
    completed without an emission, [find] emits [undefined] and the request
    is configured with an [undefined] href; while the stream has neither
    emitted nor completed, nothing has been configured. *)
Theorem findById_first_endpoint (i : string) (w : World V) :
  findById i w =
    (Ok (rdbService_buildSingle
           (OfObs (Rx.map (λ endpoint, Some (getIDHref endpoint i))
                     (halService_getEndpoint linkPath)))),
     match halService_getEndpoint linkPath with
     | endpoint :: _ =>
         configure_fresh
           (λ rid, FindByIDRequest rid (Some (str endpoint +:+ "/" +:+ i)) i) w
     | [] =>
         if halService_getEndpoint_completed linkPath
         then configure_fresh (λ rid, FindByIDRequest rid None i) w
         else w
     end).
Proof.
  unfold findById, mbind, M_bind, modify, mret, M_ret, subscribe_found.
  destruct (halService_getEndpoint linkPath); reflexivity.
Qed.

(** [delete(dso)] sends its request to the href [findById(dso.uuid)] reads:
    both are made of the first endpoint emission and the identifier. *)
Theorem delete_href_of_findById
    (w w' : World V) (dso : TDomain) (endpoint : Address) (more : list Address) :
  halService_getEndpoint linkPath = endpoint :: more →
  snd (findById (uuid_of dso) w) =
    configure_fresh
      (λ rid, FindByIDRequest rid
                (Some (getIDHref endpoint (uuid_of dso))) (uuid_of dso)) w
  ∧ snd (delete dso w') =
      on_requests
        (λ s, RequestService.configure
                (DeleteByIDRequest (next_id s)
                   (Some (getIDHref endpoint (uuid_of dso))) (uuid_of dso))
                (snd (RequestService.generateRequestId s))) w'.
Proof.
  intros Hend. split.
  - rewrite findById_request, Hend. reflexivity.
  - rewrite (delete_effect w' dso endpoint more Hend). reflexivity.
Qed.

Lemma append_cancel_l (p s1 s2 : string) : p +:+ s1 = p +:+ s2 → s1 = s2.
Proof.
  induction p as [|c p IH]; simpl; [auto |].
  intros Heq. injection Heq as Heq. auto.
Qed.

(** For one endpoint, different identifiers have different hrefs. *)
Theorem getIDHref_injective (endpoint : Address) (i j : string) :
  i ≠ j → getIDHref endpoint i ≠ getIDHref endpoint j.
Proof.
  intros Hne Heq. unfold getIDHref in Heq.
  apply append_cancel_l in Heq. apply append_cancel_l in Heq. contradiction.
Qed.

End Requests.

(** ** What the operations leave alone *)

Section Frames.

Context {V TDomain RD RDList Json : Type} `{EqDecision V}.
Context `{!DataService V TDomain RD RDList Json}.

Lemma subscribe_frame {A B : Type} (f : World V → B) (o : Rx.Observable A)
    (callback : A → World V → World V) :
  (∀ x w, f (callback x w) = f w) →
  ∀ w, f (Rx.subscribe o callback w) = f w.
Proof.
  intros Hf. unfold Rx.subscribe.
  induction o as [|x o IH]; intros w; simpl; [reflexivity |].
  rewrite IH. apply Hf.
Qed.

Lemma create_frame (dso : TDomain) (parentUUID : option string) (w : World V) :
  cache_object (store (snd (create dso parentUUID w))) = cache_object (store w)
  ∧ notifications (snd (create dso parentUUID w)) = notifications w.
Proof.
  unfold create, mbind, M_bind, fresh_id, lift, modify, mret, M_ret. cbn.
  destruct (dataBuildService_normalize dso) as [n|e]; [| split; reflexivity].
  destruct (serializer_serialize (type_of dso) n) as [j|e]; [| split; reflexivity].
  cbn. split.
  - rewrite (subscribe_frame (λ w, cache_object (store w))); reflexivity.
  - rewrite (subscribe_frame (λ w, notifications w)); reflexivity.
Qed.

(** Reading, creating and deleting never write to the object cache and never
    notify: [findAll], [findById], [findByHref], [create] and [delete] leave
    both as they were, whatever the endpoint emits and whether [create]
    throws or not. *)
Theorem requests_leave_cache
    (w : World V) (options : FindAllOptions) (i : string) (h : Address)
    (dso : TDomain) (parentUUID : option string) :
  (cache_object (store (snd (findAll options w))) = cache_object (store w)
   ∧ notifications (snd (findAll options w)) = notifications w)
  ∧ (cache_object (store (snd (findById i w))) = cache_object (store w)
     ∧ notifications (snd (findById i w)) = notifications w)
  ∧ (cache_object (store (snd (findByHref h w))) = cache_object (store w)
     ∧ notifications (snd (findByHref h w)) = notifications w)
  ∧ (cache_object (store (snd (create dso parentUUID w))) = cache_object (store w)
     ∧ notifications (snd (create dso parentUUID w)) = notifications w)
  ∧ (cache_object (store (snd (delete dso w))) = cache_object (store w)
     ∧ notifications (snd (delete dso w)) = notifications w).
Proof.
  split.
  { rewrite findAll_effect. cbn [snd].
    destruct (Rx.find _ _); [apply configure_fresh_cache | split; reflexivity]. }
  split.
  { rewrite findById_request.
    destruct (halService_getEndpoint linkPath);
      [| apply configure_fresh_cache].
    destruct (halService_getEndpoint_completed linkPath);
      [apply configure_fresh_cache | split; reflexivity]. }
  split; [split; reflexivity |].
  split; [apply create_frame |].
  unfold delete, mbind, M_bind, fresh_id, modify, mret, M_ret, subscribe_found.
  cbn. destruct (Rx.find _ _); [split; reflexivity |].
  destruct (halService_getEndpoint_completed linkPath); split; reflexivity.
Qed.

(** ** [update] *)

Lemma get_after_addPatch
    (now : N) (addr : string) (ops : list (Operation V))
    (c : ObjectCacheState V) :
  (object <$> ObjectCache.get addr (ObjectCache.addPatch now addr ops c))
    = ObjectCache.lastKnown addr c ≫= ChangeAnalyzer.applyPatch ops.
Proof.
  unfold ObjectCache.get, ObjectCache.lastKnown, ObjectCache.materialize.
  rewrite addPatch_lookup. cbn zeta.
  destruct (c !! addr) as [e|]; unfold default; cbn [from_option Datatypes.id
    object pendingPatches ObjectCache.placeholder requestId lastUpdated].
  - rewrite applyPatch_app.
    generalize (ChangeAnalyzer.applyPatch (pendingPatches e) (object e)
                  ≫= ChangeAnalyzer.applyPatch ops).
    intros [o|]; reflexivity.
  - change (ChangeAnalyzer.applyPatch ([] ++ ops) ∅)
      with (ChangeAnalyzer.applyPatch ops (∅ : NormalizedObject V)).
    change (Some (∅ : NormalizedObject V) ≫= ChangeAnalyzer.applyPatch ops)
      with (ChangeAnalyzer.applyPatch ops (∅ : NormalizedObject V)).
    generalize (ChangeAnalyzer.applyPatch ops (∅ : NormalizedObject V)).
    intros [o|]; reflexivity.
Qed.

Lemma get_lastKnown (addr : string) (c : ObjectCacheState V) (e : CacheEntry V) :
  ObjectCache.get addr c = Some e → ObjectCache.lastKnown addr c = Some (object e).
Proof.
  unfold ObjectCache.get, ObjectCache.lastKnown.
  destruct (c !! addr) as [e0|]; [| discriminate].
  destruct (ObjectCache.materialize e0) as [o|]; [| discriminate].
  intros Heq. injection Heq as <-. reflexivity.
Qed.

Lemma getBySelfLink_view (addr : string) (c : ObjectCacheState V)
    (o : NormalizedObject V) :
  (object <$> ObjectCache.get addr c) = Some o → getBySelfLink addr c = [o].
Proof.
  unfold getBySelfLink. destruct (ObjectCache.get addr c) as [e|]; [| discriminate].
  intros Heq. injection Heq as <-. reflexivity.
Qed.

(** The cache after a subscriber ran [update]: the operations of the
    comparator are appended for the self link when there are any. *)
Lemma update_cache (w : World V) (o : TDomain)
    (oldVersion newVersion : NormalizedObject V)
    (rest : list (NormalizedObject V)) :
  getBySelfLink (self_of o) (cache_object (store w)) = oldVersion :: rest →
  dataBuildService_normalize o = Ok newVersion →
  cache_object (store (snd (update o w))) =
    if isNotEmpty (comparator_diff oldVersion newVersion)
    then ObjectCache.addPatch (clock (data_request (store w))) (self_of o)
           (comparator_diff oldVersion newVersion) (cache_object (store w))
    else cache_object (store w).
Proof.
  intros Hold Hnorm. unfold update. rewrite Hold. cbn [Rx.first head].
  rewrite Hnorm. unfold mbind, M_bind.
  match goal with
  | |- context [findById ?i ?w1] =>
      destruct (findById_effect i w1) as (w' & Hfind & Hcache); rewrite Hfind
  end.
  cbn [snd mret M_ret]. rewrite Hcache.
  destruct (isNotEmpty (comparator_diff oldVersion newVersion)); reflexivity.
Qed.

(** A subscriber of [update(obj)] whose object is not in the cache, or whose
    object fails to normalize, changes nothing: no patch is added, no
    request is configured, nothing is notified, and the stream hands over
    no read model. *)
Theorem update_without_effect (w : World V) (o : TDomain) :
  ObjectCache.get (self_of o) (cache_object (store w)) = None
  ∨ (∃ e, dataBuildService_normalize o = Throw e) →
  snd (update o w) = w
  ∧ ∀ rd, fst (update o w) ≠ Ok (SNext rd).
Proof.
  intros [Hmiss | [e Hthrow]]; unfold update, getBySelfLink.
  - rewrite Hmiss. cbn. split; [reflexivity | discriminate].
  - rewrite Hthrow. destruct (ObjectCache.get _ _); cbn;
      (split; [reflexivity | discriminate]).
Qed.

(** After a subscriber ran [update(obj)], with a comparator whose operations
    turn the cached version into the normalized object, the cache emits the
    normalized object for [obj.self] at once; and a second [update(obj)] of
    the same object, whose diff with itself is empty, leaves the cache as
    the first one left it. *)
Theorem update_then_read
    (w : World V) (o : TDomain) (oldEntry : CacheEntry V)
    (newVersion : NormalizedObject V) :
  ObjectCache.get (self_of o) (cache_object (store w)) = Some oldEntry →
  dataBuildService_normalize o = Ok newVersion →
  ChangeAnalyzer.applyPatch (comparator_diff (object oldEntry) newVersion)
    (object oldEntry) = Some newVersion →
  getBySelfLink (self_of o) (cache_object (store (snd (update o w))))
    = [newVersion]
  ∧ (comparator_diff newVersion newVersion = [] →
     cache_object (store (snd (update o (snd (update o w)))))
       = cache_object (store (snd (update o w)))).
Proof.
  intros Hget Hnorm Hpatch.
  assert (Hold : getBySelfLink (self_of o) (cache_object (store w))
                   = [object oldEntry]).
  { unfold getBySelfLink. rewrite Hget. reflexivity. }
  assert (Hread : getBySelfLink (self_of o)
                    (cache_object (store (snd (update o w)))) = [newVersion]).
  { rewrite (update_cache w o _ _ _ Hold Hnorm).
    destruct (comparator_diff (object oldEntry) newVersion) as [|op1 ops] eqn:Hops.
    - cbn [isNotEmpty]. cbn in Hpatch. injection Hpatch as <-. exact Hold.
    - cbn [isNotEmpty]. apply getBySelfLink_view.
      rewrite get_after_addPatch, (get_lastKnown _ _ _ Hget). exact Hpatch. }
  split; [exact Hread |].
  intros Hsame. rewrite (update_cache _ o _ _ _ Hread Hnorm), Hsame. reflexivity.
Qed.

End Frames.

(** ** [create] *)

Section Create.

Context {V TDomain RD RDList Json : Type} `{EqDecision V}.
Context `{!DataService V TDomain RD RDList Json}.

Lemma head_distinctUntilChanged {A : Type} `{EqDecision A} (o : Rx.Observable A) :
  head (Rx.distinctUntilChanged o) = head o.
Proof.
  induction o as [|x o IH]; [reflexivity |].
  destruct o as [|y o]; [reflexivity |].
  cbn [Rx.distinctUntilChanged]. destruct (decide (x = y)) as [->|Hne].
  - exact IH.
  - reflexivity.
Qed.

Lemma head_filter_find {A : Type} (p : A → bool) (o : Rx.Observable A) :
  head (Rx.filter p o) = Rx.find p o.
Proof.
  unfold Rx.filter, Rx.find. induction o as [|x o IH]; simpl; [reflexivity |].
  destruct (p x); [reflexivity | exact IH].
Qed.

Lemma take1_head {A : Type} (o : Rx.Observable A) :
  Rx.take 1 o = match head o with Some x => [x] | None => [] end.
Proof. destruct o; reflexivity. Qed.

Lemma head_map {A B : Type} (f : A → B) (o : Rx.Observable A) :
  head (Rx.map f o) = f <$> head o.
Proof. destruct o; reflexivity. Qed.

(** The href [create] posts to, for an endpoint and a parent. *)
Lemma create_effect (dso : TDomain) (parentUUID : option string) (w : World V)
    (n : NormalizedObject V) (j : Json) :
  dataBuildService_normalize dso = Ok n →
  serializer_serialize (type_of dso) n = Ok j →
  create dso parentUUID w =
    (Ok (next_id (data_request (store w))),
     match Rx.find isNotEmpty_href (halService_getEndpoint linkPath) with
     | Some endpoint =>
         on_requests
           (λ s, RequestService.configure
                   (CreateRequest (next_id s)
                      (if truthy parentUUID
                       then Some (str endpoint +:+ "?parent=" +:+ str parentUUID)
                       else endpoint)
                      (JSON_stringify j))
                   (snd (RequestService.generateRequestId s))) w
     | None => on_requests (λ s, snd (RequestService.generateRequestId s)) w
     end).
Proof.
  intros Hnorm Hser.
  unfold create, mbind, M_bind, fresh_id, lift, modify, mret, M_ret. cbn.
  rewrite Hnorm, Hser. cbn. f_equal.
  rewrite take1_head, head_map, head_distinctUntilChanged, head_filter_find.
  unfold Rx.find, Address.
  destruct (@List.find (option string) isNotEmpty_href
              (halService_getEndpoint linkPath)); reflexivity.
Qed.

(** [create] posts once, to the first endpoint emission that is a non-empty
    string (an [undefined] or empty emission is passed over), with the
    stringified serialization as body; the href carries [?parent=] and the
    parent identifier when one is given, and is the bare endpoint when the
    parent is [undefined] or the empty string. Without such an emission
    only the request id is taken. *)
Theorem create_request
    (dso : TDomain) (parentUUID : option string) (w : World V)
    (n : NormalizedObject V) (j : Json) :
  dataBuildService_normalize dso = Ok n →
  serializer_serialize (type_of dso) n = Ok j →
  create dso parentUUID w =
    (Ok (next_id (data_request (store w))),
     match Rx.find isNotEmpty_href (halService_getEndpoint linkPath) with
     | Some endpoint =>
         on_requests
           (λ s, RequestService.configure
                   (CreateRequest (next_id s)
                      (match parentUUID with
                       | None | Some "" => endpoint
                       | Some parent =>
                           Some (str endpoint +:+ "?parent=" +:+ parent)
                       end)
                      (JSON_stringify j))
                   (snd (RequestService.generateRequestId s))) w
     | None => on_requests (λ s, snd (RequestService.generateRequestId s)) w
     end).
Proof.
  intros Hnorm Hser. rewrite (create_effect dso parentUUID w n j Hnorm Hser).
  f_equal. destruct (Rx.find _ _) as [endpoint|]; [| reflexivity].
  destruct parentUUID as [[|c parent]|]; reflexivity.
Qed.

(** A [create] that throws has configured nothing: the stored entries, the
    calls handed to the transport, the object cache and the notifications
    are those from before the call. *)
Theorem create_throw_configures_nothing
    (dso : TDomain) (parentUUID : option string) (w w' : World V) (e : string) :
  create dso parentUUID w = (Throw e, w') →
  entries (data_request (store w')) = entries (data_request (store w))
  ∧ sent (data_request (store w')) = sent (data_request (store w))
  ∧ cache_object (store w') = cache_object (store w)
  ∧ notifications w' = notifications w.
Proof.
  unfold create, mbind, M_bind, fresh_id, lift, modify, mret, M_ret. cbn.
  destruct (dataBuildService_normalize dso) as [n|e1].
  - destruct (serializer_serialize (type_of dso) n) as [j|e2]; [discriminate |].
    intros Heq. injection Heq as _ <-. repeat split; reflexivity.
  - intros Heq. injection Heq as _ <-. repeat split; reflexivity.
Qed.

Lemma head_if_not_empty {A : Type} (l : list A) :
  (if isNotEmpty l then head l else None) = head l.
Proof. destruct l; reflexivity. Qed.

(** On an unsuccessful [ErrorResponse] the stream of [create] notifies once,
    with the title [Server Error:] and the error message of the response,
    configures no request, and ends in an error instead of a read model. *)
Theorem create_response_error (resp : RestResponse) (w : World V) :
  isSuccessful resp = false →
  instanceofErrorResponse resp = true →
  fst (create_response resp w) = Ok (SError "TypeError")
  ∧ notifications (snd (create_response resp w))
    = notifications w ++ [("Server Error:", errorMessage resp)]
  ∧ store (snd (create_response resp w)) = store w.
Proof.
  intros Hfail Herr. unfold create_response. rewrite Hfail, Herr.
  repeat split; reflexivity.
Qed.

(** On any other response the stream of [create] hands the first self link
    to [findByHref] without notifying; a response without self links, also
    an unsuccessful one that is no [ErrorResponse], makes it configure a
    GET request whose href is [undefined]. *)
Theorem create_response_links (resp : RestResponse) (w : World V) :
  isSuccessful resp = true ∨ instanceofErrorResponse resp = false →
  create_response resp w =
    (Ok (SNext (rdbService_buildSingle (OfHref (head (resourceSelfLinks resp))))),
     configure_fresh (λ rid, GetRequest rid (head (resourceSelfLinks resp))) w)
  ∧ (resourceSelfLinks resp = [] →
     snd (create_response resp w)
       = configure_fresh (λ rid, GetRequest rid None) w).
Proof.
  intros Hcase.
  assert (Hcond : negb (isSuccessful resp) && instanceofErrorResponse resp = false).
  { destruct Hcase as [-> | ->]; [reflexivity | apply andb_false_r]. }
  assert (Heq : create_response resp w =
    (Ok (SNext (rdbService_buildSingle (OfHref (head (resourceSelfLinks resp))))),
     configure_fresh (λ rid, GetRequest rid (head (resourceSelfLinks resp))) w)).
  { unfold create_response. rewrite Hcond, head_if_not_empty. reflexivity. }
  split; [exact Heq |].
  intros Hnil. rewrite Heq, Hnil. reflexivity.
Qed.

End Create.

(** ** The stream of [delete] *)

Module DeleteFacts.

Import RequestService RequestServiceFacts DeleteStream.

Lemma omap_getByUUID_app i (l l' : list RequestState) :
  omap (getByUUID i) (l ++ l') = omap (getByUUID i) l ++ omap (getByUUID i) l'.
Proof. apply omap_app. Qed.

(** Once the stream of [delete] has emitted or failed, later states of the
    request store never change what it has shown: [find] stops at the first
    completed state. *)
Theorem delete_stream_sticky i (l l' : list RequestState) :
  delete_stream i l ≠ SSilent →
  delete_stream i (l ++ l') = delete_stream i l.
Proof.
  unfold delete_stream, Rx.find.
  change (@omap Rx.Observable) with (@omap list).
  rewrite omap_getByUUID_app.
  destruct (List.find completed (omap (getByUUID i) l)) as [e|] eqn:Hf.
  - intros _. rewrite (find_app_Some _ _ _ _ Hf). reflexivity.
  - intros Hne. contradiction.
Qed.

Lemma delete_stream_awaiting i evs :
  ∀ s, awaiting i s →
    forallb (λ ev, negb (is_completion_of i ev)) evs = true →
    delete_stream i (trace evs s) = SSilent.
Proof.
  induction evs as [|ev evs IH]; intros s Haw Hevs.
  - destruct Haw as (e & Hg & Hp & Hc). simpl.
    rewrite (delete_stream_skip i s e _ Hg Hc). reflexivity.
  - simpl in Hevs. apply andb_true_iff in Hevs as [Hev Hevs].
    apply negb_true_iff in Hev. simpl.
    destruct Haw as (e & Hg & Hp & Hc).
    rewrite (delete_stream_skip i s e _ Hg Hc).
    apply IH; [| exact Hevs].
    apply awaiting_step; [| exact Hev]. exists e. auto.
Qed.

Lemma getByUUID_absent i s :
  (∀ e, In e (entries s) → id e ≠ i) → getByUUID i s = None.
Proof.
  intros Habs. unfold getByUUID. apply find_all_false.
  intros e He. apply bool_decide_eq_false_2. auto.
Qed.

(** An id that was handed out and never stored is never stored later. *)
Lemma never_stored_step i s ev :
  (i < next_id s)%nat → (∀ e, In e (entries s) → id e ≠ i) →
  (i < next_id (step ev s))%nat
  ∧ ∀ e, In e (entries (step ev s)) → id e ≠ i.
Proof.
  intros Hlt Habs. destruct ev as [k a b | j resp | a | d]; simpl.
  - unfold call. cbn [generateRequestId]. unfold configure.
    destruct (RequestService.lookup _ _); cbn [entries next_id].
    + split; [lia | exact Habs].
    + split; [lia |]. intros e He. apply in_app_or in He as [He | He]; [auto |].
      destruct He as [<- | []]. cbn. lia.
  - split; [exact Hlt |]. unfold complete. cbn [entries].
    intros e He. apply in_map_iff in He as (x & <- & Hx).
    rewrite settle_id. auto.
  - split; [exact Hlt |]. unfold invalidateByAddress. cbn [entries].
    intros e He. apply in_map_iff in He as (x & <- & Hx).
    rewrite mark_stale_id. auto.
  - split; [exact Hlt | exact Habs].
Qed.

Lemma delete_stream_never_stored i evs :
  ∀ s, (i < next_id s)%nat → (∀ e, In e (entries s) → id e ≠ i) →
    delete_stream i (trace evs s) = SSilent.
Proof.
  assert (Hskip : ∀ s l, getByUUID i s = None →
            delete_stream i (s :: l) = delete_stream i l).
  { intros s l Hn. unfold delete_stream. cbn [omap list_omap]. rewrite Hn.
    reflexivity. }
  induction evs as [|ev evs IH]; intros s Hlt Habs; simpl.
  - rewrite Hskip by (apply getByUUID_absent; exact Habs). reflexivity.
  - rewrite Hskip by (apply getByUUID_absent; exact Habs).
    destruct (never_stored_step i s ev Hlt Habs) as [Hlt' Habs'].
    apply IH; assumption.
Qed.

Section WithDataService.

Context {V TDomain RD RDList Json : Type} `{EqDecision V}.
Context `{!DataService V TDomain RD RDList Json}.

Lemma delete_awaiting (w : World V) (dso : TDomain)
    (endpoint : Address) (more : list Address) :
  ids_below (data_request (store w)) = true →
  halService_getEndpoint linkPath = endpoint :: more →
  awaiting (next_id (data_request (store w)))
    (data_request (store (snd (delete dso w)))).
Proof.
  intros Hids Hend. rewrite (delete_effect w dso endpoint more Hend).
  cbn [snd store data_request].
  apply (configure_fresh_identity
           (DeleteByIDRequest (next_id (data_request (store w)))
              (Some (getIDHref endpoint (uuid_of dso))) (uuid_of dso))
           (snd (generateRequestId (data_request (store w)))));
    [reflexivity | exact (ids_below_fresh _ Hids)].
Qed.

(** The stream of [delete] emits nothing as long as the transport has not
    completed its request, whatever else happens to the request store. *)
Theorem delete_silent_until_completion
    (w : World V) (dso : TDomain) (endpoint : Address) (more : list Address)
    (evs : list Event) :
  ids_below (data_request (store w)) = true →
  halService_getEndpoint linkPath = endpoint :: more →
  forallb (λ ev, negb (is_completion_of (next_id (data_request (store w))) ev))
    evs = true →
  delete_stream (next_id (data_request (store w)))
    (trace evs (data_request (store (snd (delete dso w))))) = SSilent.
Proof.
  intros Hids Hend Hevs.
  apply delete_stream_awaiting; [| exact Hevs].
  exact (delete_awaiting w dso endpoint more Hids Hend).
Qed.

(** The stream of [delete] emits the success flag of the first completion of
    its request, [true] for a deletion the server confirmed, and keeps it
    whatever follows, a second completion of the same request included. *)
Theorem delete_emits_first_completion
    (w : World V) (dso : TDomain) (endpoint : Address) (more : list Address)
    (pre post : list Event) (resp : RestResponse) :
  ids_below (data_request (store w)) = true →
  halService_getEndpoint linkPath = endpoint :: more →
  forallb (λ ev, negb (is_completion_of (next_id (data_request (store w))) ev))
    pre = true →
  delete_stream (next_id (data_request (store w)))
    (trace (pre ++ EComplete (next_id (data_request (store w))) resp :: post)
       (data_request (store (snd (delete dso w)))))
  = SNext (isSuccessful resp).
Proof.
  intros Hids Hend Hpre.
  apply delete_stream_completion; [| exact Hpre].
  exact (delete_awaiting w dso endpoint more Hids Hend).
Qed.

(** A [delete] called while the endpoint stream has neither emitted nor
    completed takes a request id, stores no entry and hands nothing to the
    transport; as long as the endpoint stream stays that way, the returned
    stream is silent whatever happens to the request store, since no other
    caller's request is ever stored under that id. *)
Theorem delete_without_endpoint
    (w : World V) (dso : TDomain) (evs : list Event) :
  ids_below (data_request (store w)) = true →
  halService_getEndpoint linkPath = [] →
  halService_getEndpoint_completed linkPath = false →
  fst (delete dso w) = Ok (next_id (data_request (store w)))
  ∧ sent (data_request (store (snd (delete dso w))))
    = sent (data_request (store w))
  ∧ entries (data_request (store (snd (delete dso w))))
    = entries (data_request (store w))
  ∧ delete_stream (next_id (data_request (store w)))
      (trace evs (data_request (store (snd (delete dso w))))) = SSilent.
Proof.
  intros Hids Hend Hopen.
  assert (Hdel : delete dso w =
            (Ok (next_id (data_request (store w))),
             on_requests (λ s, snd (generateRequestId s)) w)).
  { unfold delete, mbind, M_bind, fresh_id, modify, mret, M_ret, subscribe_found.
    cbn. rewrite Hend, Hopen. reflexivity. }
  rewrite Hdel. cbn [fst snd]. repeat split.
  apply delete_stream_never_stored; cbn; [lia |].
  intros e He. unfold ids_below in Hids. rewrite forallb_forall in Hids.
  specialize (Hids e He). apply Nat.ltb_lt in Hids. lia.
Qed.

(** A [delete] called after the endpoint stream has completed without an
    emission configures its DELETE request all the same, with an
    [undefined] href: [find] emits [undefined] on completion and the guard
    is not applied to it. *)
Lemma delete_after_completion (w : World V) (dso : TDomain) :
  halService_getEndpoint linkPath = [] →
  halService_getEndpoint_completed linkPath = true →
  delete dso w =
    (Ok (next_id (data_request (store w))),
     on_requests
       (λ s, RequestService.configure
               (DeleteByIDRequest (next_id s) None (uuid_of dso))
               (snd (RequestService.generateRequestId s))) w).
Proof.
  intros Hend Hdone.
  unfold delete, mbind, M_bind, fresh_id, modify, mret, M_ret, subscribe_found.
  cbn. rewrite Hend, Hdone. reflexivity.
Qed.

End WithDataService.

End DeleteFacts.

(** ** Instances *)

Lemma getFindAllHref_always_valued_witness :
  findAll_args page1_size20 ≠ []
  ∧ getFindAllHref (DataService0 := late_service) page1_size20 None
    = [Some "undefined?page=0&size=20"; Some "?page=0&size=20";
       Some "https://rest/api/items?page=0&size=20"]
  ∧ sent (data_request (store (snd
      (findAll (DataService0 := late_service) page1_size20 empty_world))))
    = [FindAllRequest 0%nat (Some "undefined?page=0&size=20") page1_size20].
Proof.
  assert (Hargs : findAll_args page1_size20 ≠ []) by discriminate.
  split; [exact Hargs |]. split; [reflexivity |].
  destruct (getFindAllHref_always_valued (DataService0 := late_service)
              page1_size20 None Hargs) as (_ & _ & Hreq).
  rewrite (Hreq empty_world None
             [Some ""; Some "https://rest/api/items"] eq_refl).
  reflexivity.
Defined.

Lemma delete_href_of_findById_witness :
  halService_getEndpoint (DataService := sample_service total_serializer)
    (linkPath (DataService := sample_service total_serializer))
    = [Some "https://rest/api/items"]
  ∧ sent (data_request (store (snd
      (findById (DataService0 := sample_service total_serializer)
         "42" empty_world))))
    = [FindByIDRequest 0%nat item42 "42"]
  ∧ sent (data_request (store (snd
      (delete (DataService0 := sample_service total_serializer)
         sample_item empty_world))))
    = [DeleteByIDRequest 0%nat item42 "42"].
Proof.
  split; [reflexivity |].
  destruct (delete_href_of_findById
              (DataService0 := sample_service total_serializer)
              empty_world empty_world sample_item
              (Some "https://rest/api/items") [] eq_refl) as [Hfind Hdel].
  split.
  - exact (eq_trans (f_equal (λ w, sent (data_request (store w))) Hfind) eq_refl).
  - exact (eq_trans (f_equal (λ w, sent (data_request (store w))) Hdel) eq_refl).
Defined.

Lemma getIDHref_injective_witness :
  "42" ≠ "43"
  ∧ getIDHref (Some "https://rest/api/items") "42"
    ≠ getIDHref (Some "https://rest/api/items") "43".
Proof.
  assert (Hne : "42" ≠ "43") by discriminate.
  split; [exact Hne |].
  exact (getIDHref_injective (Some "https://rest/api/items") "42" "43" Hne).
Defined.

Lemma update_without_effect_witness :
  ObjectCache.get (self_of (DataService := sample_service total_serializer)
                     sample_item)
    (cache_object (store empty_world)) = None
  ∧ snd (update (DataService0 := sample_service total_serializer)
           sample_item empty_world) = empty_world.
Proof.
  assert (Hmiss :
    ObjectCache.get (self_of (DataService := sample_service total_serializer)
                       sample_item)
      (cache_object (store empty_world)) = None) by reflexivity.
  split; [exact Hmiss |].
  exact (proj1 (update_without_effect
                  (DataService0 := sample_service total_serializer)
                  empty_world sample_item (or_introl Hmiss))).
Defined.

Lemma update_then_read_witness :
  ObjectCache.get (self_of (DataService := sample_service total_serializer)
                     retitled_item)
      (cache_object (store cached_world))
    = Some (mkCacheEntry {["title" := "T"]} None [] 0%N)
  ∧ dataBuildService_normalize (DataService := sample_service total_serializer)
      retitled_item = Ok {["title" := "U"]}
  ∧ getBySelfLink "https://rest/api/items/42"
      (cache_object (store (snd
         (update (DataService0 := sample_service total_serializer)
            retitled_item cached_world))))
    = [{["title" := "U"]}].
Proof.
  assert (Hget :
    ObjectCache.get (self_of (DataService := sample_service total_serializer)
                       retitled_item)
        (cache_object (store cached_world))
      = Some (mkCacheEntry {["title" := "T"]} None [] 0%N))
    by (vm_compute; reflexivity).
  split; [exact Hget |]. split; [reflexivity |].
  refine (proj1 (update_then_read
                   (DataService0 := sample_service total_serializer)
                   cached_world retitled_item _ _ Hget eq_refl _)).
  vm_compute. reflexivity.
Defined.

Lemma create_request_witness :
  dataBuildService_normalize (DataService := late_service) sample_item
    = Ok {["title" := "T"]}
  ∧ serializer_serialize (DataService := late_service) "item" {["title" := "T"]}
    = Ok "item"
  ∧ sent (data_request (store (snd
      (create (DataService0 := late_service) sample_item (Some "p1")
         empty_world))))
    = [CreateRequest 0%nat (Some "https://rest/api/items?parent=p1") "item"].
Proof.
  split; [reflexivity |]. split; [reflexivity |].
  rewrite (create_request (DataService0 := late_service) sample_item (Some "p1")
             empty_world {["title" := "T"]} "item" eq_refl eq_refl).
  reflexivity.
Defined.

Lemma create_throw_configures_nothing_witness :
  create (DataService0 := sample_service failing_serializer) sample_item None
    cached_world
    = (Throw "SerializationFailure",
       on_requests (λ s, snd (RequestService.generateRequestId s)) cached_world)
  ∧ sent (data_request (store
      (on_requests (λ s, snd (RequestService.generateRequestId s)) cached_world)))
    = sent (data_request (store cached_world)).
Proof.
  assert (Hthrow :
    create (DataService0 := sample_service failing_serializer) sample_item None
      cached_world
      = (Throw "SerializationFailure",
         on_requests (λ s, snd (RequestService.generateRequestId s)) cached_world))
    by reflexivity.
  split; [exact Hthrow |].
  exact (proj1 (proj2 (create_throw_configures_nothing
                         (DataService0 := sample_service failing_serializer)
                         sample_item None cached_world _ _ Hthrow))).
Defined.

Lemma create_response_error_witness :
  isSuccessful not_found = false
  ∧ instanceofErrorResponse not_found = true
  ∧ notifications (snd
      (create_response (DataService0 := sample_service total_serializer)
         not_found empty_world))
    = [("Server Error:", "Not Found")].
Proof.
  split; [reflexivity |]. split; [reflexivity |].
  exact (proj1 (proj2 (create_response_error
                         (DataService0 := sample_service total_serializer)
                         not_found empty_world eq_refl eq_refl))).
Defined.

Lemma create_response_links_witness :
  (isSuccessful created = true ∨ instanceofErrorResponse created = false)
  ∧ resourceSelfLinks created = []
  ∧ sent (data_request (store (snd
      (create_response (DataService0 := sample_service total_serializer)
         created empty_world))))
    = [GetRequest 0%nat None].
Proof.
  split; [left; reflexivity |]. split; [reflexivity |].
  destruct (create_response_links
              (DataService0 := sample_service total_serializer)
              created empty_world (or_introl eq_refl)) as [_ Hnil].
  rewrite (Hnil eq_refl). reflexivity.
Defined.

Lemma delete_stream_sticky_witness :
  delete_stream 0%nat
    (RequestService.trace [RequestService.EComplete 0%nat not_found]
       (RequestService.call KDeleteByID item42 None RequestService.init))
    ≠ SSilent
  ∧ delete_stream 0%nat
      (RequestService.trace [RequestService.EComplete 0%nat not_found]
         (RequestService.call KDeleteByID item42 None RequestService.init)
       ++ [RequestService.init])
    = SNext false.
Proof.
  assert (Hne :
    delete_stream 0%nat
      (RequestService.trace [RequestService.EComplete 0%nat not_found]
         (RequestService.call KDeleteByID item42 None RequestService.init))
      ≠ SSilent) by (vm_compute; discriminate).
  split; [exact Hne |].
  rewrite (DeleteFacts.delete_stream_sticky 0%nat _ [RequestService.init] Hne).
  reflexivity.
Defined.

Lemma delete_silent_until_completion_witness :
  RequestService.ids_below (data_request (store cached_world)) = true
  ∧ halService_getEndpoint (DataService := sample_service total_serializer)
      (linkPath (DataService := sample_service total_serializer))
    = [Some "https://rest/api/items"]
  ∧ forallb (λ ev, negb (RequestService.is_completion_of 0%nat ev))
      overlapping_window = true
  ∧ delete_stream 0%nat
      (RequestService.trace overlapping_window
         (data_request (store (snd
            (delete (DataService0 := sample_service total_serializer)
               sample_item cached_world)))))
    = SSilent.
Proof.
  split; [reflexivity |]. split; [reflexivity |]. split; [reflexivity |].
  exact (DeleteFacts.delete_silent_until_completion
           (DataService0 := sample_service total_serializer)
           cached_world sample_item (Some "https://rest/api/items") []
           overlapping_window eq_refl eq_refl eq_refl).
Defined.

Lemma delete_emits_first_completion_witness :
  RequestService.ids_below (data_request (store cached_world)) = true
  ∧ halService_getEndpoint (DataService := sample_service total_serializer)
      (linkPath (DataService := sample_service total_serializer))
    = [Some "https://rest/api/items"]
  ∧ forallb (λ ev, negb (RequestService.is_completion_of 0%nat ev))
      overlapping_window = true
  ∧ delete_stream 0%nat
      (RequestService.trace
         (overlapping_window
            ++ RequestService.EComplete 0%nat created
                 :: [RequestService.EComplete 0%nat not_found])
         (data_request (store (snd
            (delete (DataService0 := sample_service total_serializer)
               sample_item cached_world)))))
    = SNext true.
Proof.
  split; [reflexivity |]. split; [reflexivity |]. split; [reflexivity |].
  exact (DeleteFacts.delete_emits_first_completion
           (DataService0 := sample_service total_serializer)
           cached_world sample_item (Some "https://rest/api/items") []
           overlapping_window [RequestService.EComplete 0%nat not_found]
           created eq_refl eq_refl eq_refl).
Defined.

Lemma delete_without_endpoint_witness :
  RequestService.ids_below (data_request (store cached_world)) = true
  ∧ halService_getEndpoint (DataService := silent_service)
      (linkPath (DataService := silent_service)) = []
  ∧ halService_getEndpoint_completed (DataService := silent_service)
      (linkPath (DataService := silent_service)) = false
  ∧ delete_stream 0%nat
      (RequestService.trace
         [RequestService.ECall KGet item42 None;
          RequestService.EComplete 0%nat created]
         (data_request (store (snd
            (delete (DataService0 := silent_service) sample_item
               cached_world)))))
    = SSilent.
Proof.
  split; [reflexivity |]. split; [reflexivity |]. split; [reflexivity |].
  exact (proj2 (proj2 (proj2
    (DeleteFacts.delete_without_endpoint (DataService0 := silent_service)
       cached_world sample_item
       [RequestService.ECall KGet item42 None;
        RequestService.EComplete 0%nat created]
       eq_refl eq_refl eq_refl)))).
Defined.
